(** * Colts Front Office GM: the transactional consistency engine of [app.py]

    A shallow embedding of the store-facing core of [app.py]: the four tables
    and their declared constraints, the statements the request handlers send
    to SQLite, the transaction orchestrator [execute_in_transaction], the
    units of work of the create / edit / delete handlers, the payload
    validation and the report filter builder.

    Conventions.
    - Python [int] and SQLite INTEGER are [Z]; REAL columns and Python
      [float] are binary64 values ([PrimFloat.float]); TEXT is [string].
    - [None] / SQL NULL is [option]'s [None].
    - A table is the list of its rows in insertion order; every query that
      the source orders says so with [order_by].
    - One connection is modelled at a time (the store is single-writer);
      lock contention between connections is outside the model.
    - Rows of a SELECT that the source does not order come in table order;
      SQLite may visit them in the order of an index instead.  Only the
      order of the statements inside a sweep depends on it, never the
      tables a unit of work leaves.
    - A NaN bound to a placeholder is bound as NULL, as the driver does
      ([bind_real]).
    - Integers are unbounded: SQLite's 64-bit INTEGER range, and the
      OverflowError the driver raises for a bound value outside it
      ([sqlite_integer]), are outside the model. *)

From Stdlib Require Import ZArith List String Ascii Bool Lia.
From Stdlib Require Import Permutation Sorting.Sorted DecimalString.
From Stdlib Require Import Floats.PrimFloat.
Import ListNotations.

Open Scope string_scope.
Open Scope Z_scope.

(** ** Schema ([init_db]) *)

Module People.
  (** [CREATE TABLE people (person_id INTEGER PRIMARY KEY, name TEXT NOT NULL)] *)
Record row := mk { person_id : Z; name : string }.
End People.

Module Units.
  (** [CREATE TABLE units (unit_id INTEGER PRIMARY KEY AUTOINCREMENT,
       name TEXT NOT NULL UNIQUE)] *)
Record row := mk { unit_id : Z; name : string }.
End Units.

Module Positions.
  (** [CREATE TABLE positions (position_id ..., code TEXT NOT NULL UNIQUE,
       description TEXT NOT NULL, unit_id INTEGER NOT NULL REFERENCES units)] *)
Record row := mk
    { position_id : Z; code : string; description : string; unit_id : Z }.
End Positions.

Module Contracts.
  (** [CREATE TABLE contracts (...)]: three foreign keys, every column
      NOT NULL. *)
Record row := mk
    { contract_id : Z;
      person_id : Z;
      position_id : Z;
      unit_id : Z;
      start_date : string;
      end_date : string;
      years : Z;
      salary_millions : float;
      cap_hit_millions : float }.
End Contracts.

(** The database file: the four tables and, for the three AUTOINCREMENT
    tables, the [sqlite_sequence] counter (largest rowid ever handed out). *)
Record store := mkStore
  { people : list People.row;
    units : list Units.row;
    positions : list Positions.row;
    contracts : list Contracts.row;
    seq_units : Z;
    seq_positions : Z;
    seq_contracts : Z }.

Definition empty_store : store := mkStore [] [] [] [] 0 0 0.

Definition set_people (s : store) (l : list People.row) : store :=
  mkStore l (units s) (positions s) (contracts s)
          (seq_units s) (seq_positions s) (seq_contracts s).
Definition set_units (s : store) (l : list Units.row) (n : Z) : store :=
  mkStore (people s) l (positions s) (contracts s)
          n (seq_positions s) (seq_contracts s).
Definition set_positions (s : store) (l : list Positions.row) (n : Z) : store :=
  mkStore (people s) (units s) l (contracts s)
          (seq_units s) n (seq_contracts s).
Definition set_contracts (s : store) (l : list Contracts.row) (n : Z) : store :=
  mkStore (people s) (units s) (positions s) l
          (seq_units s) (seq_positions s) n.

(** ** SQL building blocks *)

(** [ORDER BY key]: an insertion sort on an integer key.  SQL leaves the
    order of rows with equal keys open; here they stay in the order they
    had, which for the joins below is rowid order: a row goes in front of
    the rows already placed that carry its key. *)
Fixpoint insert_by {A} (key : A -> Z) (x : A) (l : list A) : list A :=
  match l with
  | [] => [x]
  | y :: l' => if key x <=? key y then x :: y :: l' else y :: insert_by key x l'
  end.

Fixpoint order_by {A} (key : A -> Z) (l : list A) : list A :=
  match l with
  | [] => []
  | x :: l' => insert_by key x (order_by key l')
  end.

(** [SELECT DISTINCT]: keeps the first occurrence of every value. *)
Fixpoint distinct (l : list Z) : list Z :=
  match l with
  | [] => []
  | x :: l' => x :: filter (fun y => negb (y =? x)) (distinct l')
  end.

Definition mem (x : Z) (l : list Z) : bool := existsb (Z.eqb x) l.
Definition smem (x : string) (l : list string) : bool := existsb (String.eqb x) l.

(** Largest rowid of a table (0 when it is empty). *)
Definition max_id (ids : list Z) : Z := fold_right Z.max 0 ids.

(** AUTOINCREMENT: one more than the largest rowid ever used. *)
Definition autoincrement (seq : Z) (ids : list Z) : Z := Z.max seq (max_id ids) + 1.

Definition person_ids (s : store) : list Z := map People.person_id (people s).
Definition unit_ids (s : store) : list Z := map Units.unit_id (units s).
Definition position_ids (s : store) : list Z := map Positions.position_id (positions s).
Definition contract_ids (s : store) : list Z := map Contracts.contract_id (contracts s).

(** ** Exceptions *)

Inductive exn :=
| ValueError (msg : string)
| TypeError (msg : string)
| IntegrityError (msg : string)        (* sqlite3.IntegrityError *)
| OperationalError (msg : string).     (* sqlite3.OperationalError *)

Definition fk_failed : exn := IntegrityError "FOREIGN KEY constraint failed".
Definition not_null_failed (col : string) : exn :=
  IntegrityError ("NOT NULL constraint failed: " ++ col).
Definition unique_failed (col : string) : exn :=
  IntegrityError ("UNIQUE constraint failed: " ++ col).

(** ** The statements the handlers send

    One constructor per SQL text of the core; the index is what the cursor
    yields ([fetchall], [fetchone] or nothing).  Bound parameters are the
    constructor's arguments, never part of the text. *)

Inductive stmt : Type -> Type :=
(* SELECT person_id FROM people ORDER BY person_id *)
| SelectPersonIds : stmt (list Z)
(* INSERT INTO people (person_id, name) VALUES (?, ?) *)
| InsertPerson (person_id : Z) (name : option string) : stmt unit
(* SELECT unit_id FROM positions WHERE position_id = ?   -- fetchone *)
| SelectPositionUnit (position_id : option Z) : stmt (option Z)
(* INSERT INTO contracts (person_id, position_id, unit_id, start_date,
     end_date, years, salary_millions, cap_hit_millions) VALUES (...) *)
| InsertContract (person_id : Z) (position_id unit_id : option Z)
    (start_date end_date : string) (years : option Z)
    (salary_millions cap_hit_millions : option float) : stmt unit
(* UPDATE contracts SET person_id = ?, ... WHERE contract_id = ? *)
| UpdateContract (person_id position_id unit_id : option Z)
    (start_date end_date : string) (years : option Z)
    (salary_millions cap_hit_millions : option float) (contract_id : Z) : stmt unit
(* SELECT person_id FROM contracts WHERE contract_id = ?   -- fetchone *)
| SelectContractPerson (contract_id : Z) : stmt (option Z)
(* DELETE FROM contracts WHERE contract_id = ? *)
| DeleteContract (contract_id : Z) : stmt unit
(* SELECT COUNT( * ) AS cnt FROM contracts WHERE person_id = ? *)
| CountContractsOfPerson (person_id : Z) : stmt Z
(* DELETE FROM people WHERE person_id = ? *)
| DeletePerson (person_id : Z) : stmt unit
(* SELECT DISTINCT person_id FROM contracts WHERE unit_id = ? *)
| SelectPersonsOfUnit (unit_id : Z) : stmt (list Z)
(* DELETE FROM contracts WHERE unit_id = ? *)
| DeleteContractsOfUnit (unit_id : Z) : stmt unit
(* DELETE FROM positions WHERE unit_id = ? *)
| DeletePositionsOfUnit (unit_id : Z) : stmt unit
(* DELETE FROM units WHERE unit_id = ? *)
| DeleteUnit (unit_id : Z) : stmt unit
(* UPDATE positions SET code = ?, description = ?, unit_id = ? WHERE position_id = ? *)
| UpdatePosition (code description : string) (unit_id position_id : Z) : stmt unit
(* UPDATE contracts SET unit_id = ? WHERE position_id = ? *)
| UpdateContractsUnit (unit_id position_id : Z) : stmt unit
(* SELECT DISTINCT person_id FROM contracts WHERE position_id = ? *)
| SelectPersonsOfPosition (position_id : Z) : stmt (list Z)
(* DELETE FROM contracts WHERE position_id = ? *)
| DeleteContractsOfPosition (position_id : Z) : stmt unit
(* DELETE FROM positions WHERE position_id = ? *)
| DeletePosition (position_id : Z) : stmt unit
(* INSERT INTO units (name) VALUES (?) *)
| InsertUnit (name : string) : stmt unit
(* UPDATE units SET name = ? WHERE unit_id = ? *)
| UpdateUnit (name : string) (unit_id : Z) : stmt unit
(* INSERT INTO positions (code, description, unit_id) VALUES (?, ?, ?) *)
| InsertPosition (code description : string) (unit_id : Z) : stmt unit.

(** ** What SQLite does with each statement

    A statement either fails as a whole, leaving the store as it was, or
    yields its rows and the new store.  Constraints are the declared ones:
    NOT NULL and UNIQUE / PRIMARY KEY while rows are written, immediate
    foreign keys ([PRAGMA foreign_keys = ON]) at the end of the statement. *)

Definition sql_result (R : Type) : Type := (exn + R * store)%type.

Definition by_unit (uid : Z) (c : Contracts.row) : bool := Contracts.unit_id c =? uid.
Definition by_position (pid : Z) (c : Contracts.row) : bool := Contracts.position_id c =? pid.
Definition by_person (pid : Z) (c : Contracts.row) : bool := Contracts.person_id c =? pid.
Definition by_contract (cid : Z) (c : Contracts.row) : bool := Contracts.contract_id c =? cid.
Definition in_unit (uid : Z) (p : Positions.row) : bool := Positions.unit_id p =? uid.
Definition is_position (pid : Z) (p : Positions.row) : bool := Positions.position_id p =? pid.
Definition is_person (pid : Z) (p : People.row) : bool := People.person_id p =? pid.
Definition is_unit (uid : Z) (u : Units.row) : bool := Units.unit_id u =? uid.

Definition keep {A} (f : A -> bool) (l : list A) : list A := filter (fun x => negb (f x)) l.

(** What the driver binds for a Python [float]: a NaN goes in as NULL
    ([sqlite3_bind_double] stores NULL for it), any other value as the REAL
    it is. *)
Definition bind_real (x : option float) : option float :=
  match x with
  | Some v => if PrimFloat.is_nan v then None else Some v
  | None => None
  end.

(** The first NULL among the NOT NULL columns of a contract, if any. *)
Definition contract_null_column (person_id position_id unit_id years : option Z)
    (salary cap : option float) : option string :=
  match person_id, position_id, unit_id, years, salary, cap with
  | None, _, _, _, _, _ => Some "contracts.person_id"
  | _, None, _, _, _, _ => Some "contracts.position_id"
  | _, _, None, _, _, _ => Some "contracts.unit_id"
  | _, _, _, None, _, _ => Some "contracts.years"
  | _, _, _, _, None, _ => Some "contracts.salary_millions"
  | _, _, _, _, _, None => Some "contracts.cap_hit_millions"
  | _, _, _, _, _, _ => None
  end.

(** The three parents a contract row needs. *)
Definition contract_parents_ok (s : store) (person_id position_id unit_id : Z) : bool :=
  mem person_id (person_ids s) && mem position_id (position_ids s)
  && mem unit_id (unit_ids s).

Definition set_position (code description : string) (uid : Z) (p : Positions.row)
  : Positions.row :=
  Positions.mk (Positions.position_id p) code description uid.

Definition set_contract_unit (uid : Z) (c : Contracts.row) : Contracts.row :=
  Contracts.mk (Contracts.contract_id c) (Contracts.person_id c)
    (Contracts.position_id c) uid (Contracts.start_date c) (Contracts.end_date c)
    (Contracts.years c) (Contracts.salary_millions c) (Contracts.cap_hit_millions c).

Definition update_where {A} (f : A -> bool) (g : A -> A) (l : list A) : list A :=
  map (fun x => if f x then g x else x) l.

Definition sqlite_exec {R} (q : stmt R) (s : store) : sql_result R :=
  match q in stmt R return sql_result R with
  | SelectPersonIds =>
      inr (order_by (fun i => i) (person_ids s), s)
  | InsertPerson pid name =>
      match name with
      | None => inl (not_null_failed "people.name")
      | Some n =>
          if mem pid (person_ids s) then inl (unique_failed "people.person_id")
          else inr (tt, set_people s (people s ++ [People.mk pid n])%list)
      end
  | SelectPositionUnit position_id =>
      match position_id with
      | None => inr (None, s)
      | Some pid =>
          inr (option_map Positions.unit_id (find (is_position pid) (positions s)), s)
      end
  | InsertContract person position unit_ start_ end_ years salary cap =>
      match contract_null_column (Some person) position unit_ years
              (bind_real salary) (bind_real cap) with
      | Some col => inl (not_null_failed col)
      | None =>
          match position, unit_, years, bind_real salary, bind_real cap with
          | Some po, Some u, Some y, Some sal, Some ch =>
              let cid := autoincrement (seq_contracts s) (contract_ids s) in
              if contract_parents_ok s person po u
              then inr (tt, set_contracts s
                              (contracts s ++ [Contracts.mk cid person po u start_ end_ y sal ch])%list
                              cid)
              else inl fk_failed
          | _, _, _, _, _ => inl (not_null_failed "contracts")
          end
      end
  | UpdateContract person position unit_ start_ end_ years salary cap cid =>
      if existsb (by_contract cid) (contracts s) then
        match contract_null_column person position unit_ years
                (bind_real salary) (bind_real cap) with
        | Some col => inl (not_null_failed col)
        | None =>
            match person, position, unit_, years, bind_real salary, bind_real cap with
            | Some pe, Some po, Some u, Some y, Some sal, Some ch =>
                if contract_parents_ok s pe po u
                then inr (tt, set_contracts s
                                (update_where (by_contract cid)
                                   (fun c => Contracts.mk (Contracts.contract_id c)
                                               pe po u start_ end_ y sal ch)
                                   (contracts s))
                                (seq_contracts s))
                else inl fk_failed
            | _, _, _, _, _, _ => inl (not_null_failed "contracts")
            end
        end
      else inr (tt, s)
  | SelectContractPerson cid =>
      inr (option_map Contracts.person_id (find (by_contract cid) (contracts s)), s)
  | DeleteContract cid =>
      inr (tt, set_contracts s (keep (by_contract cid) (contracts s)) (seq_contracts s))
  | CountContractsOfPerson pid =>
      inr (Z.of_nat (List.length (filter (by_person pid) (contracts s))), s)
  | DeletePerson pid =>
      if mem pid (person_ids s) && existsb (by_person pid) (contracts s)
      then inl fk_failed
      else inr (tt, set_people s (keep (is_person pid) (people s)))
  | SelectPersonsOfUnit uid =>
      inr (distinct (map Contracts.person_id (filter (by_unit uid) (contracts s))), s)
  | DeleteContractsOfUnit uid =>
      inr (tt, set_contracts s (keep (by_unit uid) (contracts s)) (seq_contracts s))
  | DeletePositionsOfUnit uid =>
      let gone := map Positions.position_id (filter (in_unit uid) (positions s)) in
      if existsb (fun c => mem (Contracts.position_id c) gone) (contracts s)
      then inl fk_failed
      else inr (tt, set_positions s (keep (in_unit uid) (positions s)) (seq_positions s))
  | DeleteUnit uid =>
      if mem uid (unit_ids s)
         && (existsb (in_unit uid) (positions s) || existsb (by_unit uid) (contracts s))
      then inl fk_failed
      else inr (tt, set_units s (keep (is_unit uid) (units s)) (seq_units s))
  | UpdatePosition code description uid pid =>
      if existsb (is_position pid) (positions s) then
        if existsb (fun p => negb (is_position pid p) && (Positions.code p =? code)%string)
                   (positions s)
        then inl (unique_failed "positions.code")
        else if mem uid (unit_ids s)
        then inr (tt, set_positions s
                        (update_where (is_position pid) (set_position code description uid)
                           (positions s))
                        (seq_positions s))
        else inl fk_failed
      else inr (tt, s)
  | UpdateContractsUnit uid pid =>
      if existsb (by_position pid) (contracts s) then
        if mem uid (unit_ids s)
        then inr (tt, set_contracts s
                        (update_where (by_position pid) (set_contract_unit uid) (contracts s))
                        (seq_contracts s))
        else inl fk_failed
      else inr (tt, s)
  | SelectPersonsOfPosition pid =>
      inr (distinct (map Contracts.person_id (filter (by_position pid) (contracts s))), s)
  | DeleteContractsOfPosition pid =>
      inr (tt, set_contracts s (keep (by_position pid) (contracts s)) (seq_contracts s))
  | DeletePosition pid =>
      if mem pid (position_ids s) && existsb (by_position pid) (contracts s)
      then inl fk_failed
      else inr (tt, set_positions s (keep (is_position pid) (positions s)) (seq_positions s))
  | InsertUnit n =>
      if smem n (map Units.name (units s)) then inl (unique_failed "units.name")
      else let uid := autoincrement (seq_units s) (unit_ids s) in
           inr (tt, set_units s (units s ++ [Units.mk uid n])%list uid)
  | UpdateUnit n uid =>
      if existsb (is_unit uid) (units s) then
        if existsb (fun u => negb (is_unit uid u) && (Units.name u =? n)%string) (units s)
        then inl (unique_failed "units.name")
        else inr (tt, set_units s
                        (update_where (is_unit uid) (fun u => Units.mk (Units.unit_id u) n)
                           (units s))
                        (seq_units s))
      else inr (tt, s)
  | InsertPosition code description uid =>
      if smem code (map Positions.code (positions s)) then inl (unique_failed "positions.code")
      else if mem uid (unit_ids s)
      then let pid := autoincrement (seq_positions s) (position_ids s) in
           inr (tt, set_positions s (positions s ++ [Positions.mk pid code description uid])%list pid)
      else inl fk_failed
  end.

(** ** Units of work

    A unit of work is a Python closure that talks to the store only through
    [conn.execute].  It is embedded as a tree: return a value, raise, or
    execute a statement and continue with what the cursor yields. *)

Inductive prog (A : Type) : Type :=
| Ret (a : A)
| Throw (e : exn)
| Exec {R : Type} (q : stmt R) (k : R -> prog A).

Arguments Ret {A} a.
Arguments Throw {A} e.
Arguments Exec {A R} q k.

Fixpoint bind {A B} (p : prog A) (f : A -> prog B) : prog B :=
  match p with
  | Ret a => f a
  | Throw e => Throw e
  | Exec q k => Exec q (fun r => bind (k r) f)
  end.

Definition execute {R} (q : stmt R) : prog R := Exec q Ret.

Declare Scope prog_scope.
Delimit Scope prog_scope with prog.
Notation "x <- c ;; k" := (bind c (fun x => k))
  (at level 100, c at next level, right associativity) : prog_scope.
Notation "c ;;; k" := (bind c (fun _ => k))
  (at level 100, right associativity) : prog_scope.

(** [for x in xs: body x] *)
Fixpoint for_each {X} (xs : list X) (body : X -> prog unit) : prog unit :=
  match xs with
  | [] => Ret tt
  | x :: xs' => bind (body x) (fun _ => for_each xs' body)
  end.

(** How a program ends on a store: a value or an exception, and the store
    as the statements left it. *)
Inductive outcome (A : Type) : Type :=
| Returned (a : A) (s : store)
| Raised (e : exn) (s : store).

Arguments Returned {A} a s.
Arguments Raised {A} e s.

Fixpoint run {A} (p : prog A) (s : store) : outcome A :=
  match p with
  | Ret a => Returned a s
  | Throw e => Raised e s
  | Exec q k =>
      match sqlite_exec q s with
      | inl e => Raised e s
      | inr (r, s') => run (k r) s'
      end
  end.

(** The statements a program sends, in order, up to and including the one
    that fails (if any). *)
Inductive event : Type :=
| Sent {R : Type} (q : stmt R).

Fixpoint journal {A} (p : prog A) (s : store) : list event :=
  match p with
  | Ret _ => []
  | Throw _ => []
  | Exec q k =>
      match sqlite_exec q s with
      | inl _ => [Sent q]
      | inr (r, s') => Sent q :: journal (k r) s'
      end
  end.

(** ** Connections and transactions

    A connection opened with [isolation_level=None] is in autocommit mode
    until an explicit BEGIN: [durable] is the database file, [txn] the
    uncommitted view while a transaction is open. *)

Record connection := mkConn { durable : store; txn : option store }.

Inductive isolation_mode := DEFERRED | IMMEDIATE | EXCLUSIVE.

Definition connect (db : store) : connection := mkConn db None.

Definition visible (c : connection) : store :=
  match txn c with Some w => w | None => durable c end.

Definition conn_write (c : connection) (s : store) : connection :=
  match txn c with
  | Some _ => mkConn (durable c) (Some s)
  | None => mkConn s None
  end.

(* conn.execute(f"BEGIN {isolation}") *)
Definition conn_begin (isolation : isolation_mode) (c : connection) : (exn + connection)%type :=
  match txn c with
  | None => inr (mkConn (durable c) (Some (durable c)))
  | Some _ => inl (OperationalError "cannot start a transaction within a transaction")
  end.

(* conn.execute("COMMIT") *)
Definition conn_commit (c : connection) : (exn + connection)%type :=
  match txn c with
  | Some w => inr (mkConn w None)
  | None => inl (OperationalError "cannot commit - no transaction is active")
  end.

(* conn.execute("ROLLBACK") *)
Definition conn_rollback (c : connection) : (exn + connection)%type :=
  match txn c with
  | Some _ => inr (mkConn (durable c) None)
  | None => inl (OperationalError "cannot rollback - no transaction is active")
  end.

(* conn.close(): whatever was not committed is lost. *)
Definition conn_close (c : connection) : store := durable c.

(** Running a unit of work against a live connection. *)
Fixpoint run_conn {A} (p : prog A) (c : connection) : (exn + A) * connection :=
  match p with
  | Ret a => (inr a, c)
  | Throw e => (inl e, c)
  | Exec q k =>
      match sqlite_exec q (visible c) with
      | inl e => (inl e, c)
      | inr (r, s') => run_conn (k r) (conn_write c s')
      end
  end.

(** [execute_in_transaction(work, isolation)]: the pair is what the call
    gives back (a result, or the exception that leaves it) and the database
    file after [conn.close()]. *)
Definition execute_in_transaction {A} (work : prog A) (isolation : isolation_mode)
    (db : store) : (exn + A) * store :=
  let conn := connect db in
  (* except Exception: conn.execute("ROLLBACK"); raise *)
  let on_exception (e : exn) (c : connection) : (exn + A) * store :=
    match conn_rollback c with
    | inr c' => (inl e, conn_close c')
    | inl e' => (inl e', conn_close c)
    end in
  match conn_begin isolation conn with
  | inl e => on_exception e conn
  | inr c1 =>
      match run_conn work c1 with
      | (inl e, c2) => on_exception e c2
      | (inr result, c2) =>
          match conn_commit c2 with
          | inl e => on_exception e c2
          | inr c3 => (inr result, conn_close c3)
          end
      end
  end.

(** [execute_db(query, args)]: one statement on a connection of its own,
    committed when it succeeds. *)
Definition execute_db {R} (q : stmt R) (db : store) : (exn + unit) * store :=
  match sqlite_exec q db with
  | inl e => (inl e, db)
  | inr (_, s') => (inr tt, s')
  end.

(** ** The Python runtime the handlers lean on

    [int], [float], [str.strip] and [datetime.strptime(_, "%Y-%m-%d").date()]
    are the interpreter's, not the application's: they are an interface
    here, [None] standing for the exception the source catches
    ([ValueError] / [TypeError]).  [ascii_runtime] further down is a
    reference instance for plain ASCII input. *)

Module Date.
Record t := mk { year : Z; month : Z; day : Z }.
  (* date.__lt__: by year, then month, then day *)
Definition ltb (a b : t) : bool :=
    (year a <? year b)
    || ((year a =? year b)
        && ((month a <? month b) || ((month a =? month b) && (day a <? day b)))).
Definition leb (a b : t) : bool := negb (ltb b a).
End Date.

Class Runtime : Type :=
  { py_int : string -> option Z;
    py_float : string -> option float;
    py_strip : string -> string;
    strptime_ymd : string -> option Date.t }.

(** [request.form]: the submitted fields; [form.get] is the first value of
    a key, or [None]. *)
Definition Form : Type := list (string * string).

Fixpoint form_get (form : Form) (key : string) : option string :=
  match form with
  | [] => None
  | (k, v) :: rest => if (k =? key)%string then Some v else form_get rest key
  end.

(* Python truthiness of a [str | None] *)
Definition truthy (raw : option string) : bool :=
  match raw with
  | Some s => negb (s =? "")%string
  | None => false
  end.

(* x or "" *)
Definition or_empty (raw : option string) : string :=
  match raw with
  | Some s => if (s =? "")%string then "" else s
  | None => ""
  end.

Definition str_of_int (n : Z) : string := NilZero.string_of_int (Z.to_int n).

(* str(ex) *)
Definition str (ex : exn) : string :=
  match ex with
  | ValueError m | TypeError m | IntegrityError m | OperationalError m => m
  end.

Module Payload.
  (** The dict [_validate_contract_payload] builds. *)
Record t := mk
    { person_name : option string;
      person_id : option Z;
      position_id : option Z;
      unit_id : option Z;
      start_date : string;
      end_date : string;
      years : option Z;
      salary_millions : option float;
      cap_hit_millions : option float }.
End Payload.

(* f"Years must equal {expected_years} based on start/end date." *)
Definition years_message (expected_years : Z) : string :=
  "Years must equal " ++ str_of_int expected_years ++ " based on start/end date.".

Definition opt_Z_eqb (a : option Z) (b : Z) : bool :=
  match a with Some x => x =? b | None => false end.

Section Validation.
Context {RT : Runtime}.

  (* int(raw) if raw else None, inside the try: the outer [None] is the
     ValueError *)
Definition int_or_none (raw : option string) : option (option Z) :=
    match raw with
    | Some s => if (s =? "")%string then Some None
                else match py_int s with Some n => Some (Some n) | None => None end
    | None => Some None
    end.

Definition float_or_none (raw : option string) : option (option float) :=
    match raw with
    | Some s => if (s =? "")%string then Some None
                else match py_float s with Some x => Some (Some x) | None => None end
    | None => Some None
    end.

  (* datetime.strptime(raw, "%Y-%m-%d").date(); a missing field is a
     TypeError, caught the same way *)
Definition parse_date (raw : option string) : option (string * Date.t) :=
    match raw with
    | Some s => match strptime_ymd s with Some d => Some (s, d) | None => None end
    | None => None
    end.

  (** [_validate_contract_payload(form, editing)]: the payload (or [None])
      and the list of error messages. *)
Definition _validate_contract_payload (form : Form) (editing : bool)
    : option Payload.t * list string :=
    let errors : list string := [] in
    let '(person_name, person_id, errors) :=
      if editing then
        let person_id_raw := form_get form "person_id" in
        if negb (truthy person_id_raw)
        then (None, None, errors ++ ["Missing person id."])%list
        else match py_int (or_empty person_id_raw) with
             | Some n => (None, Some n, errors)
             | None => (None, None, errors ++ ["Invalid person id."])%list
             end
      else
        let person_name := py_strip (or_empty (form_get form "person_name")) in
        if (person_name =? "")%string
        then (Some person_name, None, errors ++ ["Person name is required."])%list
        else (Some person_name, None, errors) in
    let position_id_raw := form_get form "position_id" in
    let unit_id_raw := form_get form "unit_id" in
    let start_date := form_get form "start_date" in
    let end_date := form_get form "end_date" in
    let years_raw := form_get form "years" in
    let salary_raw := form_get form "salary_millions" in
    let cap_hit_raw := form_get form "cap_hit_millions" in
    let errors :=
      if negb (truthy position_id_raw && truthy unit_id_raw && truthy start_date
               && truthy end_date && truthy years_raw && truthy salary_raw
               && truthy cap_hit_raw)
      then (errors ++ ["All fields are required."])%list
      else errors in
    (* convert numeric fields *)
    match int_or_none position_id_raw, int_or_none unit_id_raw, int_or_none years_raw,
          float_or_none salary_raw, float_or_none cap_hit_raw with
    | Some position_id, Some unit_id, Some years, Some salary_m, Some cap_hit_m =>
        (* date validation *)
        match parse_date start_date, parse_date end_date with
        | Some (start_s, start_dt), Some (end_s, end_dt) =>
            if Date.ltb end_dt start_dt
            then (None, errors ++ ["End date cannot be before start date."])%list
            else
              let year_diff := Date.year end_dt - Date.year start_dt in
              let expected_years := Z.max 1 year_diff in
              if negb (opt_Z_eqb years expected_years)
              then (None,
                    errors ++ [years_message expected_years])%list
              else
                (Some (Payload.mk person_name person_id position_id unit_id
                         start_s end_s years salary_m cap_hit_m),
                 errors)
        | _, _ => (None, errors ++ ["Dates must be valid (YYYY-MM-DD)."])%list
        end
    | _, _, _, _, _ =>
        (None, errors ++ ["Numeric fields must be valid numbers."])%list
    end.
End Validation.

(** ** Units of work of the handlers *)

Local Open Scope prog_scope.

(** [_position_unit_matches(conn, position_id, unit_id)] *)
Definition _position_unit_matches (position_id unit_id : option Z) : prog bool :=
  row <- execute (SelectPositionUnit position_id) ;;
  match row with
  | None => Ret false
  | Some stored =>
      match unit_id with
      | Some u => Ret (stored =? u)
      | None => Throw (TypeError "int() argument must be a string, a bytes-like object or a real number, not 'NoneType'")
      end
  end.

(** The identifier scan of [create_contract.work]:
    [for pid in existing_ids: if pid == next_id: next_id += 1
                              elif pid > next_id: break] *)
Fixpoint scan_ids (existing_ids : list Z) (next_id : Z) : Z :=
  match existing_ids with
  | [] => next_id
  | pid :: rest =>
      if pid =? next_id then scan_ids rest (next_id + 1)
      else if pid >? next_id then next_id
      else scan_ids rest next_id
  end.

Definition lowest_free_id (existing_ids : list Z) : Z := scan_ids existing_ids 1.

Definition position_mismatch : exn :=
  ValueError "Selected position does not belong to selected unit.".

(** [create_contract.work] *)
Definition create_contract_work (payload : Payload.t) : prog unit :=
  existing_ids <- execute SelectPersonIds ;;
  let next_id := lowest_free_id existing_ids in
  execute (InsertPerson next_id (Payload.person_name payload)) ;;;
  matches <- _position_unit_matches (Payload.position_id payload) (Payload.unit_id payload) ;;
  if negb matches then Throw position_mismatch
  else
    execute (InsertContract next_id
               (Payload.position_id payload) (Payload.unit_id payload)
               (Payload.start_date payload) (Payload.end_date payload)
               (Payload.years payload)
               (Payload.salary_millions payload) (Payload.cap_hit_millions payload)).

(** [edit_contract.work] *)
Definition edit_contract_work (payload : Payload.t) (contract_id : Z) : prog unit :=
  matches <- _position_unit_matches (Payload.position_id payload) (Payload.unit_id payload) ;;
  if negb matches then Throw position_mismatch
  else
    execute (UpdateContract (Payload.person_id payload)
               (Payload.position_id payload) (Payload.unit_id payload)
               (Payload.start_date payload) (Payload.end_date payload)
               (Payload.years payload)
               (Payload.salary_millions payload) (Payload.cap_hit_millions payload)
               contract_id).

(** [delete_contract.work] *)
Definition delete_contract_work (contract_id : Z) : prog unit :=
  row <- execute (SelectContractPerson contract_id) ;;
  match row with
  | None => Ret tt
  | Some person_id =>
      execute (DeleteContract contract_id) ;;;
      remaining <- execute (CountContractsOfPerson person_id) ;;
      if remaining =? 0 then execute (DeletePerson person_id) else Ret tt
  end.

(** The orphan sweep shared by [delete_unit.work] and [delete_position.work]:
    [for pid in person_ids: if COUNT( * ) == 0: DELETE FROM people ...] *)
Definition delete_orphans (person_ids : list Z) : prog unit :=
  for_each person_ids (fun pid =>
    cnt <- execute (CountContractsOfPerson pid) ;;
    if cnt =? 0 then execute (DeletePerson pid) else Ret tt).

(** [delete_unit.work] *)
Definition delete_unit_work (unit_id : Z) : prog unit :=
  person_ids <- execute (SelectPersonsOfUnit unit_id) ;;
  execute (DeleteContractsOfUnit unit_id) ;;;
  delete_orphans person_ids ;;;
  execute (DeletePositionsOfUnit unit_id) ;;;
  execute (DeleteUnit unit_id).

(** [edit_position.work] *)
Definition edit_position_work (code description : string) (unit_id position_id : Z)
  : prog unit :=
  execute (UpdatePosition code description unit_id position_id) ;;;
  (* Keep contracts.unit_id in sync if position moves units. *)
  execute (UpdateContractsUnit unit_id position_id).

(** [delete_position.work] *)
Definition delete_position_work (position_id : Z) : prog unit :=
  person_ids <- execute (SelectPersonsOfPosition position_id) ;;
  execute (DeleteContractsOfPosition position_id) ;;;
  delete_orphans person_ids ;;;
  execute (DeletePosition position_id).

Local Close Scope prog_scope.

(** ** Request handlers (POST)

    A handler maps the submitted form and the database to what the browser
    gets and the database afterwards.  An exception nobody catches leaves
    the handler as [Uncaught]. *)

Inductive response :=
| Redirect (endpoint : string) (flashed : list string)
| Render (template : string) (flashed : list string)
| Uncaught (ex : exn).

Definition is_integrity_error (ex : exn) : bool :=
  match ex with IntegrityError _ => true | _ => false end.

Section Handlers.
Context {RT : Runtime}.

Definition create_contract (form : Form) (db : store) : response * store :=
    let '(payload, errors) := _validate_contract_payload form false in
    match errors with
    | _ :: _ => (Render "CONTRACT_FORM_TEMPLATE" errors, db)
    | [] =>
        let work :=
          match payload with
          | Some p => create_contract_work p
          | None => Throw (TypeError "'NoneType' object is not subscriptable")
          end in
        match execute_in_transaction work IMMEDIATE db with
        | (inr _, db') => (Redirect "list_contracts" ["Contract created."], db')
        | (inl ex, db') => (Render "CONTRACT_FORM_TEMPLATE" [str ex], db')
        end
    end.

Definition edit_contract (contract_id : Z) (form : Form) (db : store)
    : response * store :=
    match find (by_contract contract_id) (contracts db) with
    | None => (Redirect "list_contracts" ["Contract not found."], db)
    | Some _ =>
        let '(payload, errors) := _validate_contract_payload form true in
        match errors with
        | _ :: _ => (Render "CONTRACT_FORM_TEMPLATE" errors, db)
        | [] =>
            let work :=
              match payload with
              | Some p => edit_contract_work p contract_id
              | None => Throw (TypeError "'NoneType' object is not subscriptable")
              end in
            match execute_in_transaction work IMMEDIATE db with
            | (inr _, db') => (Redirect "list_contracts" ["Contract updated."], db')
            | (inl ex, db') => (Render "CONTRACT_FORM_TEMPLATE" [str ex], db')
            end
        end
    end.

Definition delete_contract (contract_id : Z) (db : store) : response * store :=
    match execute_in_transaction (delete_contract_work contract_id) IMMEDIATE db with
    | (inr _, db') => (Redirect "list_contracts" ["Contract deleted."], db')
    | (inl ex, db') => (Uncaught ex, db')
    end.

Definition list_units (form : Form) (db : store) : response * store :=
    let unit_name := py_strip (or_empty (form_get form "unit_name")) in
    if (unit_name =? "")%string
    then (Render "UNITS_TEMPLATE" ["Unit name is required."], db)
    else
      match execute_db (InsertUnit unit_name) db with
      | (inr _, db') => (Render "UNITS_TEMPLATE" ["Unit added."], db')
      | (inl ex, db') =>
          if is_integrity_error ex
          then (Render "UNITS_TEMPLATE" ["Unit name must be unique."], db')
          else (Uncaught ex, db')
      end.

Definition edit_unit (unit_id : Z) (form : Form) (db : store) : response * store :=
    match find (is_unit unit_id) (units db) with
    | None => (Redirect "list_units" ["Unit not found."], db)
    | Some _ =>
        let unit_name := py_strip (or_empty (form_get form "unit_name")) in
        if (unit_name =? "")%string
        then (Render "UNIT_EDIT_TEMPLATE" ["Unit name is required."], db)
        else
          match execute_db (UpdateUnit unit_name unit_id) db with
          | (inr _, db') => (Redirect "list_units" ["Unit updated."], db')
          | (inl ex, db') =>
              if is_integrity_error ex
              then (Render "UNIT_EDIT_TEMPLATE" ["Unit name must be unique."], db')
              else (Uncaught ex, db')
          end
    end.

Definition delete_unit (unit_id : Z) (db : store) : response * store :=
    match execute_in_transaction (delete_unit_work unit_id) IMMEDIATE db with
    | (inr _, db') => (Redirect "list_units" ["Unit and related data deleted."], db')
    | (inl ex, db') => (Uncaught ex, db')
    end.

Definition list_positions (form : Form) (db : store) : response * store :=
    let code := py_strip (or_empty (form_get form "code")) in
    let description := py_strip (or_empty (form_get form "description")) in
    let unit_id_raw := form_get form "unit_id" in
    if negb (negb (code =? "")%string && negb (description =? "")%string
             && truthy unit_id_raw)
    then (Render "POSITIONS_TEMPLATE" ["All fields are required."], db)
    else
      match py_int (or_empty unit_id_raw) with
      | None => (Render "POSITIONS_TEMPLATE" ["Invalid unit."], db)
      | Some unit_id =>
          match execute_db (InsertPosition code description unit_id) db with
          | (inr _, db') => (Render "POSITIONS_TEMPLATE" ["Position added."], db')
          | (inl ex, db') =>
              if is_integrity_error ex
              then (Render "POSITIONS_TEMPLATE" ["Position code must be unique."], db')
              else (Uncaught ex, db')
          end
      end.

Definition edit_position (position_id : Z) (form : Form) (db : store)
    : response * store :=
    match find (is_position position_id) (positions db) with
    | None => (Redirect "list_positions" ["Position not found."], db)
    | Some _ =>
        let code := py_strip (or_empty (form_get form "code")) in
        let description := py_strip (or_empty (form_get form "description")) in
        let unit_id_raw := form_get form "unit_id" in
        if negb (negb (code =? "")%string && negb (description =? "")%string
                 && truthy unit_id_raw)
        then (Render "POSITION_EDIT_TEMPLATE" ["All fields are required."], db)
        else
          match py_int (or_empty unit_id_raw) with
          | None => (Render "POSITION_EDIT_TEMPLATE" ["Invalid unit."], db)
          | Some unit_id =>
              match execute_in_transaction
                      (edit_position_work code description unit_id position_id)
                      IMMEDIATE db with
              | (inr _, db') => (Redirect "list_positions" ["Position updated."], db')
              | (inl ex, db') =>
                  if is_integrity_error ex
                  then (Render "POSITION_EDIT_TEMPLATE" ["Position code must be unique."], db')
                  else (Uncaught ex, db')
              end
          end
    end.

Definition delete_position (position_id : Z) (db : store) : response * store :=
    match execute_in_transaction (delete_position_work position_id) IMMEDIATE db with
    | (inr _, db') => (Redirect "list_positions" ["Position and related data deleted."], db')
    | (inl ex, db') => (Uncaught ex, db')
    end.
End Handlers.

(** ** The report: filter builder and its two queries *)

(** A value bound to a [?] placeholder. *)
Inductive param := PInt (n : Z) | PFloat (x : float).

Module Filters.
Record t := mk
  { unit_id : option Z;
    position_id : option Z;
    min_salary : option float;
    max_salary : option float }.
End Filters.

Module Listing.
(** A row of the row-listing query. *)
Record row := mk
  { contract_id : Z;
    years : Z;
    salary_millions : float;
    cap_hit_millions : float;
    person_id : Z;
    name : string;
    position_code : string;
    position_description : string;
    unit_name : string }.
End Listing.

Module Stats.
(** The row of the aggregate query; AVG and SUM of no rows are NULL. *)
Record row := mk
  { count_contracts : Z;
    avg_salary : option float;
    avg_cap_hit : option float;
    total_cap_hit : option float }.
End Stats.

Definition LISTING_SELECT : string :=
"
        SELECT
          c.contract_id,
          c.years,
          c.salary_millions,
          c.cap_hit_millions,
          p.person_id,
          p.name,
          pos.code AS position_code,
          pos.description AS position_description,
          u.name AS unit_name
        FROM contracts c
          JOIN people p   ON c.person_id   = p.person_id
          JOIN positions pos ON c.position_id = pos.position_id
          JOIN units u    ON c.unit_id     = u.unit_id
        ".

Definition STATS_SELECT : string :=
"
        SELECT
          COUNT(*) AS count_contracts,
          AVG(c.salary_millions) AS avg_salary,
          AVG(c.cap_hit_millions) AS avg_cap_hit,
          SUM(c.cap_hit_millions) AS total_cap_hit
        FROM contracts c
          JOIN people p ON c.person_id = p.person_id
        ".

Definition ORDER_BY_PERSON : string := " ORDER BY p.person_id".

(* " AND ".join(conditions) *)
Fixpoint join_and (conditions : list string) : string :=
  match conditions with
  | [] => ""
  | [c] => c
  | c :: rest => c ++ " AND " ++ join_and rest
  end.

(** The conditions / params part of [report()]: the two lists after the
    four [if ... is not None] blocks. *)
Definition build_filter (f : Filters.t) : list string * list param :=
  let conditions : list string := [] in
  let params : list param := [] in
  let '(conditions, params) :=
    match Filters.unit_id f with
    | Some unit_id => (conditions ++ ["c.unit_id = ?"], params ++ [PInt unit_id])%list
    | None => (conditions, params)
    end in
  let '(conditions, params) :=
    match Filters.position_id f with
    | Some position_id => (conditions ++ ["c.position_id = ?"], params ++ [PInt position_id])%list
    | None => (conditions, params)
    end in
  let '(conditions, params) :=
    match Filters.min_salary f with
    | Some min_salary => (conditions ++ ["c.salary_millions >= ?"], params ++ [PFloat min_salary])%list
    | None => (conditions, params)
    end in
  let '(conditions, params) :=
    match Filters.max_salary f with
    | Some max_salary => (conditions ++ ["c.salary_millions <= ?"], params ++ [PFloat max_salary])%list
    | None => (conditions, params)
    end in
  (conditions, params).

Definition where_clause (conditions : list string) : string :=
  match conditions with
  | [] => ""
  | _ :: _ => " WHERE " ++ join_and conditions
  end.

Definition contracts_query (where_ : string) : string :=
  LISTING_SELECT ++ where_ ++ ORDER_BY_PERSON.

Definition stats_query (where_ : string) : string :=
  STATS_SELECT ++ where_.

(** *** What SQLite does with the two report queries

    The engine reads the query text: one of the two SELECT heads, then an
    optional [WHERE] made of the four comparison fragments joined by [AND]
    (then [ORDER BY p.person_id] for the listing).  [None] is a text, or a
    binding of values to placeholders, that this model does not cover; the
    handler never produces one ([report_page_total]). *)

Inductive fragment := UnitIs | PositionIs | SalaryAtLeast | SalaryAtMost.

Definition fragment_text (c : fragment) : string :=
  match c with
  | UnitIs => "c.unit_id = ?"
  | PositionIs => "c.position_id = ?"
  | SalaryAtLeast => "c.salary_millions >= ?"
  | SalaryAtMost => "c.salary_millions <= ?"
  end.

Definition all_fragments : list fragment :=
  [UnitIs; PositionIs; SalaryAtLeast; SalaryAtMost].

Fixpoint strip_prefix (p s : string) : option string :=
  match p, s with
  | EmptyString, _ => Some s
  | String a p', String b s' => if Ascii.eqb a b then strip_prefix p' s' else None
  | String _ _, EmptyString => None
  end.

Definition read_fragment (s : string) : option (fragment * string) :=
  fold_right
    (fun c otherwise =>
       match strip_prefix (fragment_text c) s with
       | Some rest => Some (c, rest)
       | None => otherwise
       end)
    None all_fragments.

(* fragment (" AND " fragment)* tail *)
Fixpoint read_conditions (fuel : nat) (tail s : string) : option (list fragment) :=
  match fuel with
  | O => None
  | S fuel' =>
      match read_fragment s with
      | None => None
      | Some (c, rest) =>
          if (rest =? tail)%string then Some [c]
          else match strip_prefix " AND " rest with
               | Some rest' => option_map (cons c) (read_conditions fuel' tail rest')
               | None => None
               end
      end
  end.

Definition read_where (tail s : string) : option (list fragment) :=
  if (s =? tail)%string then Some []
  else match strip_prefix " WHERE " s with
       | Some rest => read_conditions (String.length s) tail rest
       | None => None
       end.
















(** *** The handler *)

Module Page.
(** What [report()] hands to the template. *)
Record t := mk
  { contracts : list Listing.row;
    stats : option Stats.row;
    filters : Filters.t }.
End Page.




Section Report.
Context {RT : Runtime}.




End Report.

(** ** A reference runtime for plain ASCII input

    Enough of [int], [float], [str.strip] and [strptime] to run the handlers
    on ordinary form input: blanks are the ASCII ones, integers are an
    optional sign and decimal digits, reals are short decimals
    [digits[.digits]] (exact quotient of two exactly represented values) and
    the words [nan], [inf] and [infinity] in any case, dates are [YYYY-M-D]
    with one or two digits of month and day. *)

Definition is_space (a : ascii) : bool :=
  let n := nat_of_ascii a in
  ((n =? 32) || ((9 <=? n) && (n <=? 13)) || ((28 <=? n) && (n <=? 31)))%nat.

Fixpoint lstrip (s : string) : string :=
  match s with
  | String a s' => if is_space a then lstrip s' else s
  | EmptyString => EmptyString
  end.

Fixpoint string_rev (s : string) : string :=
  match s with
  | EmptyString => EmptyString
  | String a s' => string_rev s' ++ String a EmptyString
  end.

Definition ascii_strip (s : string) : string :=
  string_rev (lstrip (string_rev (lstrip s))).

Definition digit_of (a : ascii) : option Z :=
  let n := nat_of_ascii a in
  if ((48 <=? n) && (n <=? 57))%nat then Some (Z.of_nat n - 48) else None.

Fixpoint read_digits (s : string) (acc : Z) : option Z :=
  match s with
  | EmptyString => Some acc
  | String a s' =>
      match digit_of a with
      | Some d => read_digits s' (10 * acc + d)
      | None => None
      end
  end.

Definition read_number (s : string) : option Z :=
  match s with
  | EmptyString => None
  | String _ _ => read_digits s 0
  end.

Definition ascii_int (s : string) : option Z :=
  match ascii_strip s with
  | String "-"%char s' => option_map Z.opp (read_number s')
  | String "+"%char s' => read_number s'
  | s' => read_number s'
  end.

(* the text before the first [sep], and the text after it *)
Fixpoint split_at (sep : ascii) (s : string) : string * option string :=
  match s with
  | EmptyString => (EmptyString, None)
  | String a s' =>
      if Ascii.eqb a sep then (EmptyString, Some s')
      else let '(before, after) := split_at sep s' in (String a before, after)
  end.

Definition is_leap (y : Z) : bool :=
  ((y mod 4 =? 0) && negb (y mod 100 =? 0)) || (y mod 400 =? 0).

Definition days_in_month (y m : Z) : Z :=
  if m =? 2 then (if is_leap y then 29 else 28)
  else if (m =? 4) || (m =? 6) || (m =? 9) || (m =? 11) then 30
  else 31.

Definition short_number (s : string) : option Z :=
  if ((1 <=? String.length s) && (String.length s <=? 2))%nat then read_number s else None.

Definition ascii_strptime_ymd (s : string) : option Date.t :=
  match split_at "-"%char s with
  | (ys, Some rest) =>
      match split_at "-"%char rest with
      | (ms, Some ds) =>
          match (if (String.length ys =? 4)%nat then read_number ys else None),
                short_number ms, short_number ds with
          | Some y, Some m, Some d =>
              if (1 <=? y) && (1 <=? m) && (m <=? 12) && (1 <=? d) && (d <=? days_in_month y m)
              then Some (Date.mk y m d) else None
          | _, _, _ => None
          end
      | _ => None
      end
  | _ => None
  end.

Definition digit_real (a : ascii) : option float :=
  match digit_of a with
  | Some 0 => Some 0%float | Some 1 => Some 1%float | Some 2 => Some 2%float
  | Some 3 => Some 3%float | Some 4 => Some 4%float | Some 5 => Some 5%float
  | Some 6 => Some 6%float | Some 7 => Some 7%float | Some 8 => Some 8%float
  | Some 9 => Some 9%float
  | _ => None
  end.

(* mantissa and power of ten of a digit string, continuing from [acc] *)
Fixpoint read_decimal (s : string) (acc scale : float) (fraction : bool)
  : option (float * float) :=
  match s with
  | EmptyString => Some (acc, scale)
  | String a s' =>
      if Ascii.eqb a "."%char then
        if fraction then None else read_decimal s' acc scale true
      else
        match digit_real a with
        | Some d =>
            read_decimal s' (PrimFloat.add (PrimFloat.mul acc 10) d)
              (if fraction then PrimFloat.mul scale 10 else scale) fraction
        | None => None
        end
  end.

Definition has_digit (s : string) : bool :=
  existsb (fun a => match digit_of a with Some _ => true | None => false end)
          (list_ascii_of_string s).

Definition read_real (s : string) : option float :=
  if has_digit s then
    match read_decimal s 0 1 false with
    | Some (m, scale) => Some (PrimFloat.div m scale)
    | None => None
    end
  else None.

Definition lower (a : ascii) : ascii :=
  let n := nat_of_ascii a in
  if ((65 <=? n) && (n <=? 90))%nat then ascii_of_nat (n + 32) else a.

Fixpoint lowercase (s : string) : string :=
  match s with
  | EmptyString => EmptyString
  | String a s' => String (lower a) (lowercase s')
  end.

(* an unsigned literal: a special word or a short decimal *)
Definition read_literal (s : string) : option float :=
  let word := lowercase s in
  if (word =? "nan")%string then Some PrimFloat.nan
  else if ((word =? "inf") || (word =? "infinity"))%string then Some PrimFloat.infinity
  else read_real s.

Definition ascii_float (s : string) : option float :=
  match ascii_strip s with
  | String "-"%char s' => option_map PrimFloat.opp (read_literal s')
  | String "+"%char s' => read_literal s'
  | s' => read_literal s'
  end.

Definition ascii_runtime : Runtime :=
  {| py_int := ascii_int;
     py_float := ascii_float;
     py_strip := ascii_strip;
     strptime_ymd := ascii_strptime_ymd |}.

(** ** The application as a whole: every request that writes *)

Inductive request :=
| PostCreateContract (form : Form)
| PostEditContract (contract_id : Z) (form : Form)
| PostDeleteContract (contract_id : Z)
| PostListUnits (form : Form)
| PostEditUnit (unit_id : Z) (form : Form)
| PostDeleteUnit (unit_id : Z)
| PostListPositions (form : Form)
| PostEditPosition (position_id : Z) (form : Form)
| PostDeletePosition (position_id : Z).

Definition handle {RT : Runtime} (r : request) (db : store) : response * store :=
  match r with
  | PostCreateContract form => create_contract form db
  | PostEditContract cid form => edit_contract cid form db
  | PostDeleteContract cid => delete_contract cid db
  | PostListUnits form => list_units form db
  | PostEditUnit uid form => edit_unit uid form db
  | PostDeleteUnit uid => delete_unit uid db
  | PostListPositions form => list_positions form db
  | PostEditPosition pid form => edit_position pid form db
  | PostDeletePosition pid => delete_position pid db
  end.

(** The database after a sequence of requests, starting from [db]. *)
Fixpoint serve {RT : Runtime} (rs : list request) (db : store) : store :=
  match rs with
  | [] => db
  | r :: rs' => serve rs' (snd (handle r db))
  end.

(** ** The properties the claims are about *)

(** The constraints [init_db] declares: primary keys, the two UNIQUE
    columns, and the four foreign keys. *)
Record wf (s : store) : Prop := mkWf
  { wf_people_pk : NoDup (person_ids s);
    wf_units_pk : NoDup (unit_ids s);
    wf_positions_pk : NoDup (position_ids s);
    wf_contracts_pk : NoDup (contract_ids s);
    wf_units_name : NoDup (map Units.name (units s));
    wf_positions_code : NoDup (map Positions.code (positions s));
    wf_positions_fk :
      forall p, In p (positions s) -> In (Positions.unit_id p) (unit_ids s);
    wf_contracts_fk :
      forall c, In c (contracts s) ->
        In (Contracts.person_id c) (person_ids s)
        /\ In (Contracts.position_id c) (position_ids s)
        /\ In (Contracts.unit_id c) (unit_ids s) }.

(** The unit stored on a position (what [_position_unit_matches] reads). *)
Definition position_unit (s : store) (position_id : Z) : option Z :=
  option_map Positions.unit_id (find (is_position position_id) (positions s)).

(** Invariant 1: a contract's own [unit_id] is its position's. *)
Definition unit_sync (s : store) : Prop :=
  forall c, In c (contracts s) ->
    position_unit s (Contracts.position_id c) = Some (Contracts.unit_id c).

(** The number of contracts of a person. *)
Definition contract_count (cs : list Contracts.row) (person_id : Z) : Z :=
  Z.of_nat (List.length (filter (by_person person_id) cs)).

(** Invariant 2: every person has a contract. *)
Definition no_orphans (s : store) : Prop :=
  forall p, In p (people s) -> 0 < contract_count (contracts s) (People.person_id p).

(** The people a cascade examines ([affected]) and finds without a contract
    left in [cs]. *)
Definition orphaned (cs : list Contracts.row) (affected : list Z) (p : People.row) : bool :=
  mem (People.person_id p) affected && (contract_count cs (People.person_id p) =? 0).

(* x is not None *)
Definition given {A} (x : option A) : bool :=
  match x with Some _ => true | None => false end.

(** The filters that are present, as fragments and as bound values, left
    to right: what the report's contract asks of the builder. *)
Definition present_fragments (f : Filters.t) : list fragment :=
  ((if given (Filters.unit_id f) then [UnitIs] else [])
   ++ (if given (Filters.position_id f) then [PositionIs] else [])
   ++ (if given (Filters.min_salary f) then [SalaryAtLeast] else [])
   ++ (if given (Filters.max_salary f) then [SalaryAtMost] else []))%list.

Definition present_values (f : Filters.t) : list param :=
  (match Filters.unit_id f with Some v => [PInt v] | None => [] end
   ++ match Filters.position_id f with Some v => [PInt v] | None => [] end
   ++ match Filters.min_salary f with Some v => [PFloat v] | None => [] end
   ++ match Filters.max_salary f with Some v => [PFloat v] | None => [] end)%list.

(** Which filters are present, whatever their values. *)
Definition presence (f : Filters.t) : bool * bool * bool * bool :=
  (given (Filters.unit_id f), given (Filters.position_id f),
   given (Filters.min_salary f), given (Filters.max_salary f)).

(** The WHERE predicate the filters denote. *)
Definition matches (f : Filters.t) (c : Contracts.row) : bool :=
  match Filters.unit_id f with Some v => Contracts.unit_id c =? v | None => true end
  && match Filters.position_id f with Some v => Contracts.position_id c =? v | None => true end
  && match Filters.min_salary f with
     | Some v => PrimFloat.leb v (Contracts.salary_millions c) | None => true end
  && match Filters.max_salary f with
     | Some v => PrimFloat.leb (Contracts.salary_millions c) v | None => true end.

(** What ORDER BY promises of its result. *)
Definition ascending {A} (key : A -> Z) : list A -> Prop :=
  StronglySorted (fun a b => key a <= key b).

(** The identifier [create_contract.work] computes from the people table. *)
Definition allocated_id (s : store) : Z :=
  lowest_free_id (order_by (fun i => i) (person_ids s)).

(** ** Sample data

    Two units with a position each, two people with a contract each. *)
Definition sample_db : store :=
  mkStore
    [People.mk 1 "Ann"; People.mk 2 "Bob"]
    [Units.mk 1 "Offense"; Units.mk 2 "Defense"]
    [Positions.mk 1 "QB" "Quarterback" 1; Positions.mk 2 "LB" "Linebacker" 2]
    [Contracts.mk 1 1 1 1 "2024-03-01" "2026-03-01" 2 1.5 2;
     Contracts.mk 2 2 2 2 "2024-01-01" "2024-06-01" 1 3 3.5]
    2 2 2.

(** A new-contract form: two calendar years apart, position 1 of unit 1. *)
Definition sample_form (person_name years : string) : Form :=
  [("person_name", person_name); ("position_id", "1"); ("unit_id", "1");
   ("start_date", "2024-03-01"); ("end_date", "2026-03-01"); ("years", years);
   ("salary_millions", "4.5"); ("cap_hit_millions", "5")].


(** A submission whose fields other than the dates and the year count pass
    validation: the person part is there, the four other required fields
    are filled in and are numbers. *)
Definition other_fields_valid {RT : Runtime} (form : Form) (editing : bool) : Prop :=
  (if editing
   then truthy (form_get form "person_id") = true
        /\ py_int (or_empty (form_get form "person_id")) <> None
   else (py_strip (or_empty (form_get form "person_name")) =? "")%string = false)
  /\ truthy (form_get form "position_id") = true
  /\ truthy (form_get form "unit_id") = true
  /\ truthy (form_get form "salary_millions") = true
  /\ truthy (form_get form "cap_hit_millions") = true
  /\ int_or_none (form_get form "position_id") <> None
  /\ int_or_none (form_get form "unit_id") <> None
  /\ float_or_none (form_get form "salary_millions") <> None
  /\ float_or_none (form_get form "cap_hit_millions") <> None.

(** The (start_date, end_date, years) triple a submission carries: the three
    fields are filled in, the dates read as [start_dt] and [end_dt], the
    year count as [years]. *)
Definition submitted_triple {RT : Runtime} (form : Form)
    (start_dt end_dt : Date.t) (years : Z) : Prop :=
  truthy (form_get form "start_date") = true
  /\ truthy (form_get form "end_date") = true
  /\ truthy (form_get form "years") = true
  /\ option_map snd (parse_date (form_get form "start_date")) = Some start_dt
  /\ option_map snd (parse_date (form_get form "end_date")) = Some end_dt
  /\ int_or_none (form_get form "years") = Some (Some years).

(** The caller's test: [if errors: ...] is not taken. *)
Definition accepted {RT : Runtime} (form : Form) (editing : bool) : Prop :=
  snd (_validate_contract_payload form editing) = [].

(** The contract form of the spec's second example: within one calendar
    year. *)
Definition short_form (years : string) : Form :=
  [("person_name", "Dee"); ("position_id", "2"); ("unit_id", "2");
   ("start_date", "2024-01-01"); ("end_date", "2024-06-01"); ("years", years);
   ("salary_millions", "1"); ("cap_hit_millions", "1.5")].

(** A form whose end date is before its start date. *)
Definition backwards_form (years : string) : Form :=
  [("person_name", "Eve"); ("position_id", "2"); ("unit_id", "2");
   ("start_date", "2024-06-01"); ("end_date", "2024-01-01"); ("years", years);
   ("salary_millions", "1"); ("cap_hit_millions", "1.5")].

(** ** What the units of work are expected to leave *)

(** The store a committed contract creation leaves. *)
Definition created (s : store) (nm : string) (po u : Z) (start_ end_ : string)
    (y : Z) (sal ch : float) : store :=
  let cid := autoincrement (seq_contracts s) (contract_ids s) in
  mkStore (people s ++ [People.mk (allocated_id s) nm]) (units s) (positions s)
          (contracts s ++ [Contracts.mk cid (allocated_id s) po u start_ end_ y sal ch])
          (seq_units s) (seq_positions s) cid.

(** One round of the sweep. *)
Definition sweep_one (cs : list Contracts.row) (pid : Z) (people_ : list People.row)
  : list People.row :=
  if contract_count cs pid =? 0 then keep (is_person pid) people_ else people_.


(** The people a unit's (a position's) contracts refer to. *)
Definition persons_of_unit (s : store) (uid : Z) : list Z :=
  distinct (map Contracts.person_id (filter (by_unit uid) (contracts s))).
Definition persons_of_position (s : store) (pid : Z) : list Z :=
  distinct (map Contracts.person_id (filter (by_position pid) (contracts s))).

(** The store a committed [delete_unit] leaves. *)
Definition unit_deleted (s : store) (uid : Z) : store :=
  let cs := keep (by_unit uid) (contracts s) in
  mkStore (keep (orphaned cs (persons_of_unit s uid)) (people s))
          (keep (is_unit uid) (units s))
          (keep (in_unit uid) (positions s))
          cs
          (seq_units s) (seq_positions s) (seq_contracts s).

(** The store a committed [delete_position] leaves. *)
Definition position_deleted (s : store) (pid : Z) : store :=
  let cs := keep (by_position pid) (contracts s) in
  mkStore (keep (orphaned cs (persons_of_position s pid)) (people s))
          (units s)
          (keep (is_position pid) (positions s))
          cs
          (seq_units s) (seq_positions s) (seq_contracts s).

(** The store a committed [delete_contract] leaves. *)
Definition contract_deleted (s : store) (cid : Z) : store :=
  match find (by_contract cid) (contracts s) with
  | None => s
  | Some c =>
      let cs := keep (by_contract cid) (contracts s) in
      mkStore (keep (orphaned cs [Contracts.person_id c]) (people s))
              (units s) (positions s) cs
              (seq_units s) (seq_positions s) (seq_contracts s)
  end.

(** A contract left after [DELETE FROM contracts WHERE unit_id = ?] still
    points into the unit: the one way [delete_unit.work] can fail. *)
Definition dangling_position (s : store) (uid : Z) : bool :=
  existsb (fun c => mem (Contracts.position_id c)
                      (map Positions.position_id (filter (in_unit uid) (positions s))))
          (keep (by_unit uid) (contracts s)).

(** The store a committed [edit_position] leaves. *)
Definition position_edited (s : store) (code description : string) (uid pid : Z) : store :=
  mkStore (people s) (units s)
          (update_where (is_position pid) (set_position code description uid) (positions s))
          (update_where (by_position pid) (set_contract_unit uid) (contracts s))
          (seq_units s) (seq_positions s) (seq_contracts s).



(** The seven fields [_validate_contract_payload] requires of every form. *)
Definition required_fields : list string :=
  ["position_id"; "unit_id"; "start_date"; "end_date"; "years";
   "salary_millions"; "cap_hit_millions"].


(** An edit form for a contract: the hidden person identifier, then the
    fields of [sample_form]. *)
Definition edit_form (person_id : string) : Form :=
  ("person_id", person_id) :: sample_form "" "2".

(** The store a committed [edit_contract] leaves. *)
Definition contract_edited (s : store) (cid pe po u : Z) (sd ed : string)
    (y : Z) (sal ch : float) : store :=
  set_contracts s
    (update_where (by_contract cid)
       (fun c => Contracts.mk (Contracts.contract_id c) pe po u sd ed y sal ch)
       (contracts s))
    (seq_contracts s).

(** A person row that no contract refers to. *)
Definition orphan (s : store) (p : People.row) : Prop :=
  In p (people s) /\ contract_count (contracts s) (People.person_id p) = 0.

(** A database the application reaches from the empty one: two units, a
    position in each, a contract for Ann and one for Bob on position 1,
    then an edit that hands Ann's contract to Bob.  Ann stays in the people
    table without a contract. *)
Definition stranded_db : store :=
  serve (RT := ascii_runtime)
    [PostListUnits [("unit_name", "Offense")];
     PostListUnits [("unit_name", "Defense")];
     PostListPositions [("code", "QB"); ("description", "Quarterback"); ("unit_id", "1")];
     PostListPositions [("code", "LB"); ("description", "Linebacker"); ("unit_id", "2")];
     PostCreateContract (sample_form "Ann" "2");
     PostCreateContract (sample_form "Bob" "2");
     PostEditContract 1 (edit_form "2")]
    empty_store.





(** ** AUTOINCREMENT as a high-water mark *)

(** Between two states of one AUTOINCREMENT table: the counter has not gone
    back, and every identifier in the table now was in it before or was
    handed out in between, above the former counter. *)
Definition never_reissued (ids : store -> list Z) (seq : store -> Z)
    (before after : store) : Prop :=
  seq before <= seq after
  /\ forall i, In i (ids after) -> In i (ids before) \/ seq before < i <= seq after.

Definition high_water (before after : store) : Prop :=
  never_reissued unit_ids seq_units before after
  /\ never_reissued position_ids seq_positions before after
  /\ never_reissued contract_ids seq_contracts before after.


(** * Proofs *)

(** ** Lists, membership tests, ORDER BY *)

Lemma mem_In (x : Z) (l : list Z) : mem x l = true <-> In x l.
Proof.
  unfold mem. rewrite existsb_exists. split.
  - intros [y [Hy E]]. apply Z.eqb_eq in E. now subst.
  - intros H. exists x. split; [assumption | apply Z.eqb_refl].
Qed.

Lemma mem_not_In (x : Z) (l : list Z) : mem x l = false <-> ~ In x l.
Proof.
  rewrite <- mem_In. destruct (mem x l); split; intros; congruence.
Qed.

Lemma smem_In (x : string) (l : list string) : smem x l = true <-> In x l.
Proof.
  unfold smem. rewrite existsb_exists. split.
  - intros [y [Hy E]]. apply String.eqb_eq in E. now subst.
  - intros H. exists x. split; [assumption | apply String.eqb_refl].
Qed.

Lemma smem_not_In (x : string) (l : list string) : smem x l = false <-> ~ In x l.
Proof.
  rewrite <- smem_In. destruct (smem x l); split; intros; congruence.
Qed.

Lemma In_keep {A} (f : A -> bool) (x : A) (l : list A) :
  In x (keep f l) <-> In x l /\ f x = false.
Proof.
  unfold keep. rewrite filter_In, negb_true_iff. reflexivity.
Qed.

Lemma insert_by_perm {A} (key : A -> Z) (x : A) (l : list A) :
  Permutation (x :: l) (insert_by key x l).
Proof.
  induction l as [|y l IH]; simpl.
  - apply Permutation_refl.
  - destruct (key x <=? key y).
    + apply Permutation_refl.
    + eapply perm_trans; [apply perm_swap | apply perm_skip, IH].
Qed.

Lemma order_by_perm {A} (key : A -> Z) (l : list A) :
  Permutation l (order_by key l).
Proof.
  induction l as [|x l IH]; simpl.
  - apply perm_nil.
  - eapply perm_trans; [apply perm_skip, IH | apply insert_by_perm].
Qed.

Lemma order_by_In {A} (key : A -> Z) (l : list A) (x : A) :
  In x (order_by key l) <-> In x l.
Proof.
  split; apply Permutation_in;
    [apply Permutation_sym|]; apply order_by_perm.
Qed.

Lemma insert_by_ascending {A} (key : A -> Z) (x : A) (l : list A) :
  ascending key l -> ascending key (insert_by key x l).
Proof.
  unfold ascending. induction 1 as [|y l Hl IH Hy]; simpl.
  - repeat constructor.
  - destruct (key x <=? key y) eqn:E.
    + apply Z.leb_le in E. constructor.
      * constructor; assumption.
      * constructor; [lia|].
        rewrite Forall_forall in *. intros z Hz. specialize (Hy z Hz). lia.
    + apply Z.leb_gt in E. constructor; [assumption|].
      rewrite Forall_forall in *. intros z Hz.
      apply (Permutation_in _ (Permutation_sym (insert_by_perm key x l))) in Hz.
      destruct Hz as [<-|Hz]; [lia | now apply Hy].
Qed.

Lemma order_by_ascending {A} (key : A -> Z) (l : list A) :
  ascending key (order_by key l).
Proof.
  induction l as [|x l IH]; simpl.
  - constructor.
  - now apply insert_by_ascending.
Qed.

Lemma max_id_upper (ids : list Z) (x : Z) : In x ids -> x <= max_id ids.
Proof.
  induction ids as [|y ids IH]; simpl; [tauto|].
  intros [->|H]; [lia | specialize (IH H); lia].
Qed.

Lemma max_id_nonneg (ids : list Z) : 0 <= max_id ids.
Proof. induction ids; simpl; lia. Qed.

Lemma autoincrement_fresh (seq : Z) (ids : list Z) : ~ In (autoincrement seq ids) ids.
Proof.
  intros H. apply max_id_upper in H. unfold autoincrement in H. lia.
Qed.

(** ** The identifier scan *)

(** On an ascending list the scan from [n] stops at the least integer from
    [n] on that the list does not hold. *)
Lemma scan_ids_least (l : list Z) :
  ascending (fun i => i) l ->
  forall n,
    n <= scan_ids l n
    /\ ~ In (scan_ids l n) l
    /\ (forall k, n <= k < scan_ids l n -> In k l).
Proof.
  unfold ascending. induction 1 as [|pid rest Hrest IH Hall]; intros n; simpl.
  - repeat split; [lia | tauto | intros; lia].
  - destruct (pid =? n) eqn:E1.
    + apply Z.eqb_eq in E1. subst pid.
      destruct (IH (n + 1)) as (Hle & Hnot & Hbelow).
      repeat split; [lia | | ].
      * intros [E|Hin]; [lia | contradiction].
      * intros k Hk. destruct (Z.eq_dec k n) as [->|Hne]; [now left|].
        right. apply Hbelow. lia.
    + apply Z.eqb_neq in E1. destruct (pid >? n) eqn:E2.
      * assert (n < pid) by lia.
        repeat split; [lia | | intros; lia].
        rewrite Forall_forall in Hall.
        intros [E|Hin]; [lia | specialize (Hall _ Hin); simpl in Hall; lia].
      * assert (pid < n) by lia.
        destruct (IH n) as (Hle & Hnot & Hbelow).
        repeat split; [assumption | | ].
        -- intros [E|Hin]; [lia | contradiction].
        -- intros k Hk. right. now apply Hbelow.
Qed.

Lemma allocated_id_least (s : store) :
  1 <= allocated_id s
  /\ ~ In (allocated_id s) (person_ids s)
  /\ (forall k, 1 <= k < allocated_id s -> In k (person_ids s)).
Proof.
  unfold allocated_id, lowest_free_id.
  destruct (scan_ids_least _ (order_by_ascending (fun i => i) (person_ids s)) 1)
    as (H1 & H2 & H3).
  repeat split.
  - assumption.
  - intros H. apply H2. now apply order_by_In.
  - intros k Hk. apply (order_by_In (fun i => i)). now apply H3.
Qed.

(** ** Programs, connections, transactions *)

Lemma run_bind {A B} (p : prog A) (f : A -> prog B) (s : store) :
  run (bind p f) s =
  match run p s with
  | Returned a s' => run (f a) s'
  | Raised e s' => Raised e s'
  end.
Proof.
  revert s. induction p as [a|e|R q k IH]; intros s; simpl; try reflexivity.
  destruct (sqlite_exec q s) as [e|[r s']]; [reflexivity | apply IH].
Qed.

Lemma run_execute {R} (q : stmt R) (s : store) :
  run (execute q) s =
  match sqlite_exec q s with
  | inl e => Raised e s
  | inr (r, s') => Returned r s'
  end.
Proof.
  unfold execute. simpl. destruct (sqlite_exec q s) as [e|[r s']]; reflexivity.
Qed.

Lemma journal_bind {A B} (p : prog A) (f : A -> prog B) (s : store) :
  journal (bind p f) s =
  (journal p s ++
   match run p s with
   | Returned a s' => journal (f a) s'
   | Raised _ _ => []
   end)%list.
Proof.
  revert s. induction p as [a|e|R q k IH]; intros s; simpl; try reflexivity.
  destruct (sqlite_exec q s) as [e|[r s']]; [reflexivity|].
  simpl. now rewrite IH.
Qed.

Lemma journal_execute {R} (q : stmt R) (s : store) : journal (execute q) s = [Sent q].
Proof.
  unfold execute. simpl. destruct (sqlite_exec q s) as [e|[r s']]; reflexivity.
Qed.

(** Inside an open transaction the statements work on the uncommitted view
    and leave the database file alone. *)
Lemma run_conn_open {A} (p : prog A) (file view : store) :
  run_conn p (mkConn file (Some view)) =
  match run p view with
  | Returned a view' => (inr a, mkConn file (Some view'))
  | Raised e view' => (inl e, mkConn file (Some view'))
  end.
Proof.
  revert view. induction p as [a|e|R q k IH]; intros view; simpl; try reflexivity.
  unfold visible, conn_write; simpl.
  destruct (sqlite_exec q view) as [e|[r view']]; [reflexivity | apply IH].
Qed.

Lemma execute_in_transaction_run {A} (work : prog A) (isolation : isolation_mode)
    (db : store) :
  execute_in_transaction work isolation db =
  match run work db with
  | Returned result db' => (inr result, db')
  | Raised ex _ => (inl ex, db)
  end.
Proof.
  unfold execute_in_transaction, conn_begin, connect. simpl.
  rewrite run_conn_open.
  destruct (run work db) as [result db'|ex db']; reflexivity.
Qed.

(** C3. Whatever the unit of work: when it returns, the call returns its
    result and the database file is exactly what its statements produced;
    when it raises, the call raises the same exception and the database file
    is what it was before BEGIN.  While the unit of work runs, the file
    itself is never written. *)
Theorem execute_in_transaction_all_or_nothing :
  forall (A : Type) (work : prog A) (isolation : isolation_mode) (db : store),
    execute_in_transaction work isolation db =
      match run work db with
      | Returned result db' => (inr result, db')
      | Raised ex _ => (inl ex, db)
      end
    /\ durable (snd (run_conn work (mkConn db (Some db)))) = db.
Proof.
  intros A work isolation db. split.
  - apply execute_in_transaction_run.
  - rewrite run_conn_open. destruct (run work db); reflexivity.
Qed.

(** ** Tables: keys under DELETE, UPDATE and INSERT *)

Section Tables.
Context {A K : Type}.
Variable key : A -> K.

Lemma NoDup_map_keep (f : A -> bool) (l : list A) :
  NoDup (map key l) -> NoDup (map key (keep f l)).
Proof.
  unfold keep. induction l as [|a l IH]; simpl; intros H; [constructor|].
  inversion H as [|? ? Hnot Hrest]; subst.
  destruct (negb (f a)); simpl; [|now apply IH].
  constructor; [|now apply IH].
  intros Hin. apply Hnot. apply in_map_iff in Hin as [b [E Hb]].
  apply filter_In in Hb as [Hb _]. rewrite <- E. now apply in_map.
Qed.

Lemma map_update_where (f : A -> bool) (g : A -> A) (l : list A) :
  (forall a, key (g a) = key a) -> map key (update_where f g l) = map key l.
Proof.
  intros Hg. unfold update_where. rewrite map_map. apply map_ext.
  intros a. destruct (f a); [apply Hg | reflexivity].
Qed.

Lemma update_where_none (f : A -> bool) (g : A -> A) (l : list A) :
  existsb f l = false -> update_where f g l = l.
Proof.
  unfold update_where. induction l as [|a l IH]; simpl; [reflexivity|].
  intros H. apply orb_false_iff in H as [Ha Hl]. rewrite Ha. f_equal. now apply IH.
Qed.

Lemma keep_none (f : A -> bool) (l : list A) :
  existsb f l = false -> keep f l = l.
Proof.
  unfold keep. induction l as [|a l IH]; simpl; [reflexivity|].
  intros H. apply orb_false_iff in H as [Ha Hl]. rewrite Ha. simpl. f_equal. now apply IH.
Qed.

Lemma In_update_where (f : A -> bool) (g : A -> A) (l : list A) (x : A) :
  In x (update_where f g l) <->
  exists a, In a l /\ x = (if f a then g a else a).
Proof.
  unfold update_where. rewrite in_map_iff. split; intros [a [H1 H2]]; exists a; split; auto.
Qed.

Lemma NoDup_snoc (l : list K) (x : K) : NoDup l -> ~ In x l -> NoDup (l ++ [x]).
Proof.
  intros Hl Hx. apply NoDup_app; [assumption | repeat constructor; simpl; tauto |].
  intros y Hy [<-|[]]. contradiction.
Qed.
End Tables.

Lemma existsb_false_forall {A} (f : A -> bool) (l : list A) :
  existsb f l = false <-> forall x, In x l -> f x = false.
Proof.
  split.
  - intros H x Hx. destruct (f x) eqn:E; [|reflexivity].
    assert (existsb f l = true) by (apply existsb_exists; eauto). congruence.
  - intros H. destruct (existsb f l) eqn:E; [|reflexivity].
    apply existsb_exists in E as [x [Hx Hf]]. rewrite (H x Hx) in Hf. discriminate.
Qed.

(** Deleting the rows of key [k] removes [k], and only [k], from the keys. *)
Lemma In_map_keep_key {A} (key : A -> Z) (k x : Z) (l : list A) :
  In x (map key (keep (fun a => key a =? k) l)) <-> In x (map key l) /\ x <> k.
Proof.
  rewrite !in_map_iff. split.
  - intros [a [E Ha]]. apply In_keep in Ha as [Ha Hk]. apply Z.eqb_neq in Hk.
    split; [eauto | congruence].
  - intros [[a [E Ha]] Hx]. exists a. split; [assumption|].
    apply In_keep. split; [assumption|]. apply Z.eqb_neq. congruence.
Qed.

(** Renaming the row of key [k] keeps a UNIQUE text column unique when no
    other row carries the new text. *)
Lemma NoDup_relabel {A} (key : A -> Z) (label : A -> string) (g : A -> A)
    (k : Z) (n : string) (l : list A) :
  (forall a, label (g a) = n) ->
  NoDup (map key l) -> NoDup (map label l) ->
  existsb (fun a => negb (key a =? k) && (label a =? n)%string) l = false ->
  NoDup (map label (update_where (fun a => key a =? k) g l)).
Proof.
  intros Hg. induction l as [|a l IH]; simpl; intros Hk Hl Hex; [constructor|].
  inversion Hk as [|? ? Hka Hkl]; inversion Hl as [|? ? Hla Hll]; subst.
  apply orb_false_iff in Hex as [Ha Hex].
  constructor; [|now apply IH].
  rewrite existsb_false_forall in Hex.
  intros Hin. apply in_map_iff in Hin as [b [E Hb]].
  apply (In_update_where (fun a => key a =? k) g) in Hb as [c [Hc ->]].
  destruct (key a =? k) eqn:Eak; destruct (key c =? k) eqn:Eck.
  - apply Z.eqb_eq in Eak, Eck. apply Hka. rewrite Eak, <- Eck. now apply in_map.
  - rewrite Hg in E. specialize (Hex c Hc). simpl in Hex. rewrite Eck in Hex.
    simpl in Hex. apply String.eqb_neq in Hex. congruence.
  - rewrite Hg in E. simpl in Ha. apply String.eqb_neq in Ha. congruence.
  - apply Hla. rewrite <- E. now apply in_map.
Qed.

(** ** Every statement keeps the declared constraints *)

Ltac break_step :=
  match goal with
  | H : inl _ = inr _ |- _ => discriminate H
  | H : inr _ = inr _ |- _ => inversion H; subst; clear H
  | H : context [match ?o with Some _ => _ | None => _ end] |- _ => destruct o eqn:?
  | H : context [if ?b then _ else _] |- _ => destruct b eqn:?
  end.
Ltac break := repeat break_step.

Ltac open_wf W :=
  destruct W as [Wp Wu Wpos Wc Wun Wpc Wpfk Wcfk];
  unfold person_ids, unit_ids, position_ids, contract_ids in *.

Ltac wf_fields :=
  constructor; unfold person_ids, unit_ids, position_ids, contract_ids; simpl;
  try assumption.

Lemma contract_parents_ok_In (s : store) (pe po u : Z) :
  contract_parents_ok s pe po u = true ->
  In pe (person_ids s) /\ In po (position_ids s) /\ In u (unit_ids s).
Proof.
  unfold contract_parents_ok. rewrite !andb_true_iff, !mem_In. tauto.
Qed.

Lemma wf_insert_person (s : store) (pid : Z) (n : string) :
  wf s -> ~ In pid (person_ids s) ->
  wf (set_people s (people s ++ [People.mk pid n])).
Proof.
  intros W Hfresh. open_wf W. wf_fields.
  - rewrite map_app. now apply NoDup_snoc.
  - intros c Hc. destruct (Wcfk c Hc) as (H1 & H2 & H3). repeat split; try assumption.
    rewrite map_app. apply in_or_app. now left.
Qed.

Lemma wf_insert_contract (s : store) (c : Contracts.row) (n : Z) :
  wf s -> ~ In (Contracts.contract_id c) (contract_ids s) ->
  contract_parents_ok s (Contracts.person_id c) (Contracts.position_id c)
    (Contracts.unit_id c) = true ->
  wf (set_contracts s (contracts s ++ [c]) n).
Proof.
  intros W Hfresh Hok. apply contract_parents_ok_In in Hok.
  open_wf W. wf_fields.
  - rewrite map_app. now apply NoDup_snoc.
  - intros c' Hc. apply in_app_or in Hc as [Hc|[<-|[]]]; [now apply Wcfk | assumption].
Qed.

Lemma wf_update_contracts (s : store) (f : Contracts.row -> bool)
    (g : Contracts.row -> Contracts.row) :
  wf s ->
  (forall c, Contracts.contract_id (g c) = Contracts.contract_id c) ->
  (forall c, In c (contracts s) -> f c = true ->
     In (Contracts.person_id (g c)) (person_ids s)
     /\ In (Contracts.position_id (g c)) (position_ids s)
     /\ In (Contracts.unit_id (g c)) (unit_ids s)) ->
  wf (set_contracts s (update_where f g (contracts s)) (seq_contracts s)).
Proof.
  intros W Hid Hfk. open_wf W. wf_fields.
  - now rewrite map_update_where.
  - intros c Hc. apply In_update_where in Hc as [a [Ha ->]].
    destruct (f a) eqn:E; [now apply Hfk | now apply Wcfk].
Qed.

Lemma wf_delete_contracts (s : store) (f : Contracts.row -> bool) :
  wf s -> wf (set_contracts s (keep f (contracts s)) (seq_contracts s)).
Proof.
  intros W. open_wf W. wf_fields.
  - now apply NoDup_map_keep.
  - intros c Hc. apply In_keep in Hc as [Hc _]. now apply Wcfk.
Qed.

Lemma wf_delete_person (s : store) (pid : Z) :
  wf s ->
  mem pid (person_ids s) && existsb (by_person pid) (contracts s) = false ->
  wf (set_people s (keep (is_person pid) (people s))).
Proof.
  intros W Hfk. open_wf W. wf_fields.
  - now apply NoDup_map_keep.
  - intros c Hc. destruct (Wcfk c Hc) as (H1 & H2 & H3). repeat split; try assumption.
    apply (In_map_keep_key People.person_id). split; [assumption|].
    intros E. apply andb_false_iff in Hfk as [Hfk|Hfk].
    + apply mem_not_In in Hfk. apply Hfk. now rewrite <- E.
    + rewrite existsb_false_forall in Hfk. specialize (Hfk c Hc).
      unfold by_person in Hfk. apply Z.eqb_neq in Hfk. contradiction.
Qed.

Lemma wf_delete_positions_of_unit (s : store) (uid : Z) :
  wf s ->
  existsb (fun c => mem (Contracts.position_id c)
                      (map Positions.position_id (filter (in_unit uid) (positions s))))
          (contracts s) = false ->
  wf (set_positions s (keep (in_unit uid) (positions s)) (seq_positions s)).
Proof.
  intros W Hfk. open_wf W. rewrite existsb_false_forall in Hfk.
  wf_fields.
  - now apply NoDup_map_keep.
  - now apply NoDup_map_keep.
  - intros p Hp. apply In_keep in Hp as [Hp _]. now apply Wpfk.
  - intros c Hc. destruct (Wcfk c Hc) as (H1 & H2 & H3). repeat split; try assumption.
    apply in_map_iff in H2 as [p [E Hp]]. apply in_map_iff. exists p. split; [assumption|].
    apply In_keep. split; [assumption|].
    destruct (in_unit uid p) eqn:Eu; [|reflexivity].
    specialize (Hfk c Hc). apply mem_not_In in Hfk. exfalso. apply Hfk.
    rewrite <- E. apply in_map. apply filter_In. now split.
Qed.

Lemma wf_delete_position (s : store) (pid : Z) :
  wf s ->
  mem pid (position_ids s) && existsb (by_position pid) (contracts s) = false ->
  wf (set_positions s (keep (is_position pid) (positions s)) (seq_positions s)).
Proof.
  intros W Hfk. open_wf W. wf_fields.
  - now apply NoDup_map_keep.
  - now apply NoDup_map_keep.
  - intros p Hp. apply In_keep in Hp as [Hp _]. now apply Wpfk.
  - intros c Hc. destruct (Wcfk c Hc) as (H1 & H2 & H3). repeat split; try assumption.
    apply (In_map_keep_key Positions.position_id). split; [assumption|].
    intros E. apply andb_false_iff in Hfk as [Hfk|Hfk].
    + apply mem_not_In in Hfk. apply Hfk. now rewrite <- E.
    + rewrite existsb_false_forall in Hfk. specialize (Hfk c Hc).
      unfold by_position in Hfk. apply Z.eqb_neq in Hfk. contradiction.
Qed.

Lemma wf_delete_unit (s : store) (uid : Z) :
  wf s ->
  mem uid (unit_ids s)
  && (existsb (in_unit uid) (positions s) || existsb (by_unit uid) (contracts s)) = false ->
  wf (set_units s (keep (is_unit uid) (units s)) (seq_units s)).
Proof.
  intros W Hfk. open_wf W.
  assert (Hcases : ~ In uid (map Units.unit_id (units s))
                   \/ ((forall p, In p (positions s) -> Positions.unit_id p <> uid)
                       /\ (forall c, In c (contracts s) -> Contracts.unit_id c <> uid))).
  { apply andb_false_iff in Hfk as [Hfk|Hfk].
    - left. now apply mem_not_In.
    - right. apply orb_false_iff in Hfk as [H1 H2].
      rewrite existsb_false_forall in H1. rewrite existsb_false_forall in H2. split.
      + intros p Hp. specialize (H1 p Hp). unfold in_unit in H1. now apply Z.eqb_neq.
      + intros c Hc. specialize (H2 c Hc). unfold by_unit in H2. now apply Z.eqb_neq. }
  wf_fields.
  - now apply NoDup_map_keep.
  - now apply NoDup_map_keep.
  - intros p Hp. apply (In_map_keep_key Units.unit_id). split; [now apply Wpfk|].
    destruct Hcases as [Hno|[Hpos _]]; [|now apply Hpos].
    intros E. apply Hno. rewrite <- E. now apply Wpfk.
  - intros c Hc. destruct (Wcfk c Hc) as (H1 & H2 & H3). repeat split; try assumption.
    apply (In_map_keep_key Units.unit_id). split; [assumption|].
    destruct Hcases as [Hno|[_ Hcs]]; [|now apply Hcs].
    intros E. apply Hno. now rewrite <- E.
Qed.

Lemma wf_update_position (s : store) (code description : string) (uid pid : Z) :
  wf s ->
  existsb (fun p => negb (is_position pid p) && (Positions.code p =? code)%string)
          (positions s) = false ->
  In uid (unit_ids s) ->
  wf (set_positions s
        (update_where (is_position pid) (set_position code description uid) (positions s))
        (seq_positions s)).
Proof.
  intros W Hcode Hunit. open_wf W. wf_fields.
  - now rewrite map_update_where.
  - now apply (NoDup_relabel Positions.position_id Positions.code _ pid code).
  - intros p Hp. apply In_update_where in Hp as [a [Ha ->]].
    destruct (is_position pid a); [assumption | now apply Wpfk].
  - intros c Hc. rewrite map_update_where by reflexivity. now apply Wcfk.
Qed.

Lemma wf_insert_unit (s : store) (n : string) :
  wf s -> ~ In n (map Units.name (units s)) ->
  let uid := autoincrement (seq_units s) (unit_ids s) in
  wf (set_units s (units s ++ [Units.mk uid n]) uid).
Proof.
  intros W Hname uid. pose proof (autoincrement_fresh (seq_units s) (unit_ids s)) as Hfresh.
  open_wf W. wf_fields.
  - rewrite map_app. now apply NoDup_snoc.
  - rewrite map_app. now apply NoDup_snoc.
  - intros p Hp. rewrite map_app. apply in_or_app. left. now apply Wpfk.
  - intros c Hc. destruct (Wcfk c Hc) as (H1 & H2 & H3). repeat split; try assumption.
    rewrite map_app. apply in_or_app. now left.
Qed.

Lemma wf_update_unit (s : store) (n : string) (uid : Z) :
  wf s ->
  existsb (fun u => negb (is_unit uid u) && (Units.name u =? n)%string) (units s) = false ->
  wf (set_units s
        (update_where (is_unit uid) (fun u => Units.mk (Units.unit_id u) n) (units s))
        (seq_units s)).
Proof.
  intros W Hname. open_wf W. wf_fields.
  - now rewrite map_update_where.
  - now apply (NoDup_relabel Units.unit_id Units.name _ uid n).
  - intros p Hp. rewrite map_update_where by reflexivity. now apply Wpfk.
  - intros c Hc. rewrite map_update_where by reflexivity. now apply Wcfk.
Qed.

Lemma wf_insert_position (s : store) (code description : string) (uid : Z) :
  wf s -> ~ In code (map Positions.code (positions s)) -> In uid (unit_ids s) ->
  let pid := autoincrement (seq_positions s) (position_ids s) in
  wf (set_positions s (positions s ++ [Positions.mk pid code description uid]) pid).
Proof.
  intros W Hcode Hunit pid.
  pose proof (autoincrement_fresh (seq_positions s) (position_ids s)) as Hfresh.
  open_wf W. wf_fields.
  - rewrite map_app. now apply NoDup_snoc.
  - rewrite map_app. now apply NoDup_snoc.
  - intros p Hp. apply in_app_or in Hp as [Hp|[<-|[]]]; [now apply Wpfk | assumption].
  - intros c Hc. destruct (Wcfk c Hc) as (H1 & H2 & H3). repeat split; try assumption.
    rewrite map_app. apply in_or_app. now left.
Qed.

(** SQLite never leaves the declared constraints broken. *)
Lemma sqlite_exec_wf {R} (q : stmt R) (s s' : store) (r : R) :
  wf s -> sqlite_exec q s = inr (r, s') -> wf s'.
Proof.
  intros W H. destruct q; simpl in H; break; try assumption.
  - apply wf_insert_person; [assumption | now apply mem_not_In].
  - apply wf_insert_contract; [assumption | apply autoincrement_fresh | assumption].
  - apply wf_update_contracts; [assumption | reflexivity |].
    intros c _ _. simpl. now apply contract_parents_ok_In with (s := s).
  - now apply wf_delete_contracts.
  - now apply wf_delete_person.
  - now apply wf_delete_contracts.
  - now apply wf_delete_positions_of_unit.
  - now apply wf_delete_unit.
  - apply wf_update_position; [assumption | assumption | now apply mem_In].
  - apply wf_update_contracts; [assumption | reflexivity |].
    intros c Hc _. simpl. destruct W as [_ _ _ _ _ _ _ Wcfk].
    destruct (Wcfk c Hc) as (H1 & H2 & _). repeat split; try assumption. now apply mem_In.
  - now apply wf_delete_contracts.
  - now apply wf_delete_position.
  - apply wf_insert_unit; [assumption | now apply smem_not_In].
  - now apply wf_update_unit.
  - apply wf_insert_position; [assumption | now apply smem_not_In | now apply mem_In].
Qed.

Lemma run_wf {A} (p : prog A) (s s' : store) (a : A) :
  wf s -> run p s = Returned a s' -> wf s'.
Proof.
  revert s. induction p as [x|e|R q k IH]; intros s W H; simpl in H.
  - now inversion H; subst.
  - discriminate.
  - destruct (sqlite_exec q s) as [e|[r s1]] eqn:E; [discriminate|].
    eapply IH; [|eassumption]. eapply sqlite_exec_wf; eassumption.
Qed.

Lemma execute_in_transaction_wf {A} (work : prog A) (isolation : isolation_mode)
    (db : store) :
  wf db -> wf (snd (execute_in_transaction work isolation db)).
Proof.
  intros W. rewrite execute_in_transaction_run.
  destruct (run work db) as [a db'|e db'] eqn:E; simpl; [|assumption].
  eapply run_wf; eassumption.
Qed.

Lemma execute_db_wf {R} (q : stmt R) (db : store) :
  wf db -> wf (snd (execute_db q db)).
Proof.
  intros W. unfold execute_db.
  destruct (sqlite_exec q db) as [e|[r s']] eqn:E; simpl; [assumption|].
  eapply sqlite_exec_wf; eassumption.
Qed.

(** ** What the units of work do *)

Lemma position_unit_set_people (s : store) (l : list People.row) (pid : Z) :
  position_unit (set_people s l) pid = position_unit s pid.
Proof. reflexivity. Qed.

Lemma allocated_id_unused (s : store) : mem (allocated_id s) (person_ids s) = false.
Proof. apply mem_not_In. apply allocated_id_least. Qed.

Lemma run_position_unit_matches (position_id unit_id : option Z) (s : store) :
  run (_position_unit_matches position_id unit_id) s =
  match position_id with
  | None => Returned false s
  | Some pid =>
      match position_unit s pid with
      | None => Returned false s
      | Some stored =>
          match unit_id with
          | Some u => Returned (stored =? u) s
          | None => Raised (TypeError "int() argument must be a string, a bytes-like object or a real number, not 'NoneType'") s
          end
      end
  end.
Proof.
  unfold _position_unit_matches. rewrite run_bind, run_execute. simpl.
  destruct position_id as [pid|]; simpl; [|reflexivity].
  unfold position_unit. destruct (find (is_position pid) (positions s)); simpl; [|reflexivity].
  destruct unit_id; reflexivity.
Qed.

Lemma bind_real_Some (x : option float) (v : float) :
  bind_real x = Some v <-> x = Some v /\ PrimFloat.is_nan v = false.
Proof.
  unfold bind_real. split.
  - destruct x as [w|]; [|discriminate].
    destruct (PrimFloat.is_nan w) eqn:E; [discriminate|].
    intros H. inversion H; subst. now split.
  - intros [-> ->]. reflexivity.
Qed.

Lemma bind_real_None (x : option float) :
  bind_real x = None <-> x = None \/ exists v, x = Some v /\ PrimFloat.is_nan v = true.
Proof.
  unfold bind_real. split.
  - destruct x as [w|]; [|now left].
    destruct (PrimFloat.is_nan w) eqn:E; [|discriminate]. right. now exists w.
  - intros [->|(v & -> & ->)]; reflexivity.
Qed.

Lemma create_contract_work_returns (payload : Payload.t) (s s' : store) :
  run (create_contract_work payload) s = Returned tt s' ->
  exists nm po u y sal ch,
    Payload.person_name payload = Some nm
    /\ Payload.position_id payload = Some po
    /\ Payload.unit_id payload = Some u
    /\ Payload.years payload = Some y
    /\ Payload.salary_millions payload = Some sal
    /\ Payload.cap_hit_millions payload = Some ch
    /\ position_unit s po = Some u
    /\ s' = created s nm po u (Payload.start_date payload) (Payload.end_date payload)
              y sal ch.
Proof.
  unfold create_contract_work. destruct payload as [nm pe po u sd ed y sal ch].
  cbn [Payload.person_name Payload.position_id Payload.unit_id Payload.years
       Payload.start_date Payload.end_date Payload.salary_millions
       Payload.cap_hit_millions].
  rewrite run_bind, run_execute. cbn [sqlite_exec].
  rewrite run_bind, run_execute. cbn [sqlite_exec].
  fold (allocated_id s). rewrite allocated_id_unused.
  destruct nm as [nm|]; [|discriminate].
  rewrite run_bind, run_position_unit_matches.
  destruct po as [po|]; [|discriminate].
  rewrite position_unit_set_people.
  destruct (position_unit s po) as [stored|] eqn:Epos; [|discriminate].
  destruct u as [u|]; [|discriminate].
  destruct (stored =? u) eqn:Eu; [|discriminate]. apply Z.eqb_eq in Eu. subst stored.
  cbn [negb]. rewrite run_execute. cbn [sqlite_exec].
  destruct y as [y|]; [|discriminate].
  destruct (bind_real sal) as [sal'|] eqn:Es; [|discriminate].
  destruct (bind_real ch) as [ch'|] eqn:Ec; [|discriminate].
  cbn [contract_null_column].
  destruct (contract_parents_ok _ _ _ _); [|discriminate].
  apply bind_real_Some in Es as [-> _], Ec as [-> _].
  intros H. inversion H; subst. exists nm, po, u, y, sal', ch'.
  repeat split; try reflexivity. assumption.
Qed.


Lemma edit_contract_work_returns (payload : Payload.t) (cid : Z) (s s' : store) :
  run (edit_contract_work payload cid) s = Returned tt s' ->
  exists po u,
    Payload.position_id payload = Some po
    /\ Payload.unit_id payload = Some u
    /\ position_unit s po = Some u
    /\ (s' = s
        \/ exists pe y sal ch,
             Payload.person_id payload = Some pe
             /\ s' = set_contracts s
                      (update_where (by_contract cid)
                         (fun c => Contracts.mk (Contracts.contract_id c) pe po u
                                     (Payload.start_date payload) (Payload.end_date payload)
                                     y sal ch)
                         (contracts s))
                      (seq_contracts s)).
Proof.
  unfold edit_contract_work. destruct payload as [nm pe po u sd ed y sal ch].
  cbn [Payload.person_id Payload.position_id Payload.unit_id Payload.years
       Payload.start_date Payload.end_date Payload.salary_millions
       Payload.cap_hit_millions].
  rewrite run_bind, run_position_unit_matches.
  destruct po as [po|]; [|discriminate].
  destruct (position_unit s po) as [stored|] eqn:Epos; [|discriminate].
  destruct u as [u|]; [|discriminate].
  destruct (stored =? u) eqn:Eu; [|discriminate]. apply Z.eqb_eq in Eu. subst stored.
  cbn [negb]. rewrite run_execute. cbn [sqlite_exec].
  intros H. exists po, u. repeat split; try assumption.
  destruct (existsb (by_contract cid) (contracts s)).
  - destruct pe as [pe|]; [|discriminate].
    destruct y as [y|]; [|discriminate].
    destruct (bind_real sal) as [sal'|] eqn:Es; [|discriminate].
    destruct (bind_real ch) as [ch'|] eqn:Ec; [|discriminate].
    cbn [contract_null_column] in H.
    destruct (contract_parents_ok _ _ _ _); [|discriminate].
    inversion H; subst. right. exists pe, y, sal', ch'. split; reflexivity.
  - inversion H; subst. now left.
Qed.

Lemma edit_contract_work_mismatch (payload : Payload.t) (cid : Z) (s : store) (po u : Z) :
  Payload.position_id payload = Some po ->
  Payload.unit_id payload = Some u ->
  position_unit s po <> Some u ->
  run (edit_contract_work payload cid) s = Raised position_mismatch s.
Proof.
  intros Hp Hu Hne. unfold edit_contract_work. rewrite Hp, Hu.
  rewrite run_bind, run_position_unit_matches.
  destruct (position_unit s po) as [stored|]; [|reflexivity].
  destruct (stored =? u) eqn:E; [|reflexivity].
  apply Z.eqb_eq in E. congruence.
Qed.

(** *** Deleting contracts and sweeping orphans *)

Lemma keep_keep {A} (f g : A -> bool) (l : list A) :
  keep f (keep g l) = keep (fun x => g x || f x) l.
Proof.
  unfold keep. induction l as [|a l IH]; simpl; [reflexivity|].
  destruct (g a); simpl; [assumption|]. destruct (f a); simpl; [assumption|].
  now rewrite IH.
Qed.

Lemma keep_ext_in {A} (f g : A -> bool) (l : list A) :
  (forall x, In x l -> f x = g x) -> keep f l = keep g l.
Proof.
  intros H. unfold keep. apply filter_ext_in. intros x Hx. now rewrite H.
Qed.

Lemma existsb_keep {A} (f : A -> bool) (l : list A) : existsb f (keep f l) = false.
Proof.
  apply existsb_false_forall. intros x Hx. now apply In_keep in Hx.
Qed.

Lemma contract_count_zero (cs : list Contracts.row) (pid : Z) :
  (contract_count cs pid =? 0) = negb (existsb (by_person pid) cs).
Proof.
  unfold contract_count. induction cs as [|c cs IH]; simpl; [reflexivity|].
  destruct (by_person pid c); simpl; [reflexivity | assumption].
Qed.

Lemma contract_count_nonneg (cs : list Contracts.row) (pid : Z) : 0 <= contract_count cs pid.
Proof. unfold contract_count. lia. Qed.

Lemma mem_distinct (x : Z) (l : list Z) : mem x (distinct l) = mem x l.
Proof.
  induction l as [|y l IH]; simpl; [reflexivity|].
  destruct (x =? y) eqn:E; simpl; [reflexivity|].
  rewrite <- IH. unfold mem. clear IH.
  induction (distinct l) as [|z d IHd]; simpl; [reflexivity|].
  destruct (z =? y) eqn:Ez; simpl.
  - apply Z.eqb_eq in Ez. subst z. rewrite E. simpl. assumption.
  - now rewrite IHd.
Qed.

Lemma orphaned_distinct (cs : list Contracts.row) (l : list Z) (p : People.row) :
  orphaned cs (distinct l) p = orphaned cs l p.
Proof. unfold orphaned. now rewrite mem_distinct. Qed.

Lemma sweep_one_orphaned (cs : list Contracts.row) (pid : Z) (rest : list Z)
    (l : list People.row) :
  keep (orphaned cs rest) (sweep_one cs pid l) = keep (orphaned cs (pid :: rest)) l.
Proof.
  unfold sweep_one. destruct (contract_count cs pid =? 0) eqn:E.
  - rewrite keep_keep. apply keep_ext_in. intros p _.
    unfold orphaned, is_person. simpl.
    rewrite Z.eqb_sym.
    destruct (pid =? People.person_id p) eqn:Ep; simpl; [|reflexivity].
    apply Z.eqb_eq in Ep. subst pid. now rewrite E.
  - apply keep_ext_in. intros p _. unfold orphaned. simpl.
    destruct (People.person_id p =? pid) eqn:Ep; simpl; [|reflexivity].
    apply Z.eqb_eq in Ep. rewrite Ep, E. now rewrite andb_false_r.
Qed.

Lemma keep_orphaned_nil (cs : list Contracts.row) (l : list People.row) :
  keep (orphaned cs []) l = l.
Proof. apply keep_none. apply existsb_false_forall. reflexivity. Qed.

(** The sweep never fails: a person is deleted only once no contract
    refers to it.  It removes exactly the examined people without a
    contract. *)
Lemma run_delete_orphans (pids : list Z) (s : store) :
  run (delete_orphans pids) s =
  Returned tt (set_people s (keep (orphaned (contracts s) pids) (people s))).
Proof.
  unfold delete_orphans. revert s. induction pids as [|pid rest IH]; intros s.
  - simpl. rewrite keep_orphaned_nil. now destruct s.
  - cbn [for_each]. rewrite run_bind, run_bind, run_execute. cbn [sqlite_exec].
    fold (contract_count (contracts s) pid).
    rewrite <- sweep_one_orphaned. unfold sweep_one.
    destruct (contract_count (contracts s) pid =? 0) eqn:E.
    + rewrite run_execute. cbn [sqlite_exec].
      rewrite contract_count_zero in E. apply negb_true_iff in E. rewrite E.
      rewrite andb_false_r. rewrite IH. reflexivity.
    + cbn [run]. rewrite IH. reflexivity.
Qed.


(** *** The three delete cascades *)

Lemma run_delete_unit_work (uid : Z) (s : store) :
  run (delete_unit_work uid) s =
  if dangling_position s uid
  then Raised fk_failed
         (set_people (set_contracts s (keep (by_unit uid) (contracts s)) (seq_contracts s))
            (keep (orphaned (keep (by_unit uid) (contracts s)) (persons_of_unit s uid))
               (people s)))
  else Returned tt (unit_deleted s uid).
Proof.
  unfold delete_unit_work.
  rewrite run_bind, run_execute. cbn [sqlite_exec].
  rewrite run_bind, run_execute. cbn [sqlite_exec].
  rewrite run_bind, run_delete_orphans.
  rewrite run_bind, run_execute. cbn [sqlite_exec].
  cbn [positions contracts set_people set_contracts people].
  fold (persons_of_unit s uid). unfold dangling_position.
  destruct (existsb _ (keep (by_unit uid) (contracts s))); [reflexivity|].
  rewrite run_execute. cbn [sqlite_exec].
  cbn [positions contracts set_people set_contracts set_positions people units unit_ids].
  rewrite !existsb_keep. rewrite andb_false_r. reflexivity.
Qed.

Lemma run_delete_position_work (pid : Z) (s : store) :
  run (delete_position_work pid) s = Returned tt (position_deleted s pid).
Proof.
  unfold delete_position_work.
  rewrite run_bind, run_execute. cbn [sqlite_exec].
  rewrite run_bind, run_execute. cbn [sqlite_exec].
  rewrite run_bind, run_delete_orphans.
  rewrite run_execute. cbn [sqlite_exec].
  cbn [positions contracts set_people set_contracts people position_ids].
  rewrite existsb_keep, andb_false_r. reflexivity.
Qed.

Lemma find_by_contract_person (cid : Z) (cs : list Contracts.row) :
  option_map Contracts.person_id (find (by_contract cid) cs) = None <->
  find (by_contract cid) cs = None.
Proof. destruct (find (by_contract cid) cs); simpl; split; congruence. Qed.

Lemma run_delete_contract_work (cid : Z) (s : store) :
  run (delete_contract_work cid) s = Returned tt (contract_deleted s cid).
Proof.
  unfold delete_contract_work, contract_deleted.
  rewrite run_bind, run_execute. cbn [sqlite_exec].
  destruct (find (by_contract cid) (contracts s)) as [c|]; cbn [option_map]; [|reflexivity].
  rewrite run_bind, run_execute. cbn [sqlite_exec].
  rewrite run_bind, run_execute. cbn [sqlite_exec].
  cbn [contracts set_contracts].
  fold (contract_count (keep (by_contract cid) (contracts s)) (Contracts.person_id c)).
  rewrite <- sweep_one_orphaned, keep_orphaned_nil. unfold sweep_one.
  destruct (contract_count _ _ =? 0) eqn:E.
  - rewrite run_execute. cbn [sqlite_exec]. cbn [contracts set_contracts].
    rewrite contract_count_zero in E. apply negb_true_iff in E. rewrite E.
    rewrite andb_false_r. reflexivity.
  - reflexivity.
Qed.

Lemma NoDup_map_injective {A K} (key : A -> K) (l : list A) (a b : A) :
  NoDup (map key l) -> In a l -> In b l -> key a = key b -> a = b.
Proof.
  induction l as [|x l IH]; simpl; [tauto|].
  intros H Ha Hb E. inversion H as [|? ? Hx Hl]; subst.
  destruct Ha as [->|Ha], Hb as [->|Hb]; try reflexivity.
  - exfalso. apply Hx. rewrite E. now apply in_map.
  - exfalso. apply Hx. rewrite <- E. now apply in_map.
  - now apply IH.
Qed.

Lemma position_unit_Some (s : store) (pid u : Z) :
  position_unit s pid = Some u ->
  exists p, In p (positions s) /\ Positions.position_id p = pid /\ Positions.unit_id p = u.
Proof.
  unfold position_unit. destruct (find (is_position pid) (positions s)) as [p|] eqn:E;
    [|discriminate].
  simpl. intros H. inversion H; subst. apply find_some in E as [Hin Hp].
  exists p. repeat split; [assumption | now apply Z.eqb_eq].
Qed.


(** *** Reassigning a position *)

Lemma edit_position_work_returns (code description : string) (uid pid : Z) (s s' : store) :
  run (edit_position_work code description uid pid) s = Returned tt s' ->
  s' = position_edited s code description uid pid.
Proof.
  unfold edit_position_work, position_edited.
  rewrite run_bind, run_execute. cbn [sqlite_exec].
  destruct (existsb (is_position pid) (positions s)) eqn:Epos; cbv beta iota.
  - destruct (existsb (fun p => negb (is_position pid p) && _) (positions s));
      cbv beta iota; [discriminate|].
    destruct (mem uid (unit_ids s)) eqn:Eu; cbv beta iota; [|discriminate].
    rewrite run_execute. cbn [sqlite_exec]. cbn [contracts set_positions].
    destruct (existsb (by_position pid) (contracts s)) eqn:Ec; cbv beta iota.
    + change (unit_ids (set_positions s
                (update_where (is_position pid) (set_position code description uid)
                   (positions s)) (seq_positions s))) with (unit_ids s).
      rewrite Eu. intros H. inversion H; subst. reflexivity.
    + intros H. inversion H; subst.
      rewrite (update_where_none (by_position pid)) by assumption. reflexivity.
  - rewrite run_execute. cbn [sqlite_exec].
    rewrite (update_where_none (is_position pid)) by assumption.
    destruct (existsb (by_position pid) (contracts s)) eqn:Ec; cbv beta iota.
    + destruct (mem uid (unit_ids s)); cbv beta iota; [|discriminate].
      intros H. inversion H; subst. reflexivity.
    + intros H. inversion H; subst.
      rewrite (update_where_none (by_position pid)) by assumption. now destruct s'.
Qed.

Lemma find_update_where_same {A} (f : A -> bool) (g : A -> A) (l : list A) :
  (forall a, f a = true -> f (g a) = true) ->
  find f (update_where f g l) = option_map g (find f l).
Proof.
  intros Hg. unfold update_where. induction l as [|a l IH]; simpl; [reflexivity|].
  destruct (f a) eqn:E.
  - now rewrite (Hg a E).
  - rewrite E. assumption.
Qed.

Lemma find_update_where_other {A} (f f' : A -> bool) (g : A -> A) (l : list A) :
  (forall a, f a = true -> f' a = false /\ f' (g a) = false) ->
  find f' (update_where f g l) = find f' l.
Proof.
  intros Hg. unfold update_where. induction l as [|a l IH]; simpl; [reflexivity|].
  destruct (f a) eqn:E.
  - destruct (Hg a E) as [H1 H2]. now rewrite H1, H2.
  - destruct (f' a); [reflexivity | assumption].
Qed.

Lemma position_unit_edited_same (s : store) (code description : string) (uid pid : Z) :
  position_unit (position_edited s code description uid pid) pid =
  option_map (fun _ => uid) (position_unit s pid).
Proof.
  unfold position_unit, position_edited. cbn [positions].
  rewrite find_update_where_same by (intros a Ha; exact Ha).
  destruct (find (is_position pid) (positions s)); reflexivity.
Qed.

Lemma position_unit_edited_other (s : store) (code description : string) (uid pid q : Z) :
  q <> pid ->
  position_unit (position_edited s code description uid pid) q = position_unit s q.
Proof.
  intros Hq. unfold position_unit, position_edited. cbn [positions].
  rewrite (find_update_where_other (is_position pid) (is_position q)); [reflexivity|].
  intros a Ha. unfold is_position in *. simpl. apply Z.eqb_eq in Ha.
  split; apply Z.eqb_neq; congruence.
Qed.

(** ** Invariant 1 under the units of work *)

Lemma unit_sync_created (s : store) (nm : string) (po u : Z) (sd ed : string)
    (y : Z) (sal ch : float) :
  unit_sync s -> position_unit s po = Some u ->
  unit_sync (created s nm po u sd ed y sal ch).
Proof.
  intros Hsync Hpos c Hc. unfold created in Hc. cbn [contracts] in Hc.
  apply in_app_or in Hc as [Hc|[<-|[]]].
  - now apply Hsync.
  - exact Hpos.
Qed.

Lemma unit_sync_contract_updated (s : store) (cid pe po u : Z) (sd ed : string)
    (y : Z) (sal ch : float) :
  unit_sync s -> position_unit s po = Some u ->
  unit_sync (set_contracts s
               (update_where (by_contract cid)
                  (fun c => Contracts.mk (Contracts.contract_id c) pe po u sd ed y sal ch)
                  (contracts s))
               (seq_contracts s)).
Proof.
  intros Hsync Hpos c Hc. cbn [contracts set_contracts] in Hc.
  apply In_update_where in Hc as [a [Ha ->]].
  destruct (by_contract cid a); [exact Hpos | now apply Hsync].
Qed.

Lemma unit_sync_position_edited (s : store) (code description : string) (uid pid : Z) :
  unit_sync s -> unit_sync (position_edited s code description uid pid).
Proof.
  intros Hsync c Hc. unfold position_edited in Hc. cbn [contracts] in Hc.
  apply In_update_where in Hc as [a [Ha ->]]. specialize (Hsync a Ha).
  unfold by_position. destruct (Contracts.position_id a =? pid) eqn:E.
  - apply Z.eqb_eq in E. cbn [set_contract_unit Contracts.position_id Contracts.unit_id].
    rewrite E in *. rewrite position_unit_edited_same, Hsync. reflexivity.
  - apply Z.eqb_neq in E. now rewrite position_unit_edited_other.
Qed.

Lemma find_keep {A} (f g : A -> bool) (l : list A) (x : A) :
  find f l = Some x -> g x = false -> find f (keep g l) = Some x.
Proof.
  unfold keep. induction l as [|a l IH]; simpl; [discriminate|].
  destruct (f a) eqn:Ef.
  - intros H Hg. inversion H; subst. rewrite Hg. simpl. now rewrite Ef.
  - intros H Hg. destruct (g a); simpl; [now apply IH|].
    rewrite Ef. now apply IH.
Qed.

Lemma find_app_Some {A} (f : A -> bool) (l l' : list A) (x : A) :
  find f l = Some x -> find f (l ++ l') = Some x.
Proof.
  induction l as [|a l IH]; simpl; [discriminate|].
  destruct (f a); [trivial | apply IH].
Qed.

Lemma position_unit_keep (s : store) (g : Positions.row -> bool) (q u n : Z) :
  position_unit s q = Some u ->
  (forall p, In p (positions s) -> Positions.position_id p = q ->
             Positions.unit_id p = u -> g p = false) ->
  position_unit (set_positions s (keep g (positions s)) n) q = Some u.
Proof.
  unfold position_unit. cbn [positions set_positions].
  destruct (find (is_position q) (positions s)) as [p|] eqn:E; [|discriminate].
  simpl. intros H Hg. inversion H; subst.
  rewrite (find_keep _ g _ p); [reflexivity | assumption |].
  apply find_some in E as [Hin Hp]. apply Hg; [assumption | now apply Z.eqb_eq | reflexivity].
Qed.

Lemma unit_sync_unit_deleted (s : store) (uid : Z) :
  unit_sync s -> unit_sync (unit_deleted s uid).
Proof.
  intros Hsync c Hc. unfold unit_deleted in Hc. cbn [contracts] in Hc.
  apply In_keep in Hc as [Hc Hu]. unfold by_unit in Hu. apply Z.eqb_neq in Hu.
  refine (position_unit_keep s (in_unit uid) _ _ (seq_positions s) (Hsync c Hc) _).
  intros p _ _ Hp. unfold in_unit. apply Z.eqb_neq. congruence.
Qed.

Lemma unit_sync_position_deleted (s : store) (pid : Z) :
  unit_sync s -> unit_sync (position_deleted s pid).
Proof.
  intros Hsync c Hc. unfold position_deleted in Hc. cbn [contracts] in Hc.
  apply In_keep in Hc as [Hc Hp]. unfold by_position in Hp. apply Z.eqb_neq in Hp.
  refine (position_unit_keep s (is_position pid) _ _ (seq_positions s) (Hsync c Hc) _).
  intros p _ Hid _. unfold is_position. apply Z.eqb_neq. congruence.
Qed.

Lemma unit_sync_contract_deleted (s : store) (cid : Z) :
  unit_sync s -> unit_sync (contract_deleted s cid).
Proof.
  intros Hsync. unfold contract_deleted.
  destruct (find (by_contract cid) (contracts s)); [|assumption].
  intros c Hc. cbn [contracts] in Hc. apply In_keep in Hc as [Hc _]. now apply Hsync.
Qed.

(** ** Invariant 2 under the cascades *)

(** A cascade that deletes the contracts selected by [f], examines at least
    the people those contracts refer to, and removes the examined people
    left without a contract, leaves no orphan behind. *)
Lemma cascade_leaves_no_orphan (cs : list Contracts.row) (f : Contracts.row -> bool)
    (affected : list Z) (p : People.row) :
  (forall c, In c cs -> f c = true -> In (Contracts.person_id c) affected) ->
  0 < contract_count cs (People.person_id p) ->
  orphaned (keep f cs) affected p = false ->
  0 < contract_count (keep f cs) (People.person_id p).
Proof.
  intros Hcover Hbefore Hkept. unfold orphaned in Hkept.
  apply andb_false_iff in Hkept as [Hout|Hcount].
  - apply mem_not_In in Hout.
    assert (E : filter (by_person (People.person_id p)) (keep f cs)
                = filter (by_person (People.person_id p)) cs).
    { unfold keep. clear Hbefore. induction cs as [|c cs IH]; simpl; [reflexivity|].
      destruct (f c) eqn:Ef; simpl.
      - destruct (by_person (People.person_id p) c) eqn:Ep.
        + exfalso. apply Hout. unfold by_person in Ep. apply Z.eqb_eq in Ep.
          rewrite <- Ep. apply (Hcover c); [now left | assumption].
        + apply IH. intros c' Hc'. apply Hcover. now right.
      - destruct (by_person (People.person_id p) c); [f_equal|];
          apply IH; intros c' Hc'; apply Hcover; now right. }
    unfold contract_count in *. now rewrite E.
  - apply Z.eqb_neq in Hcount.
    pose proof (contract_count_nonneg (keep f cs) (People.person_id p)). lia.
Qed.

Lemma persons_of_unit_cover (s : store) (uid : Z) (c : Contracts.row) :
  In c (contracts s) -> by_unit uid c = true ->
  In (Contracts.person_id c) (persons_of_unit s uid).
Proof.
  intros Hc Hu. unfold persons_of_unit. apply mem_In. rewrite mem_distinct. apply mem_In.
  apply in_map. apply filter_In. now split.
Qed.

Lemma persons_of_position_cover (s : store) (pid : Z) (c : Contracts.row) :
  In c (contracts s) -> by_position pid c = true ->
  In (Contracts.person_id c) (persons_of_position s pid).
Proof.
  intros Hc Hu. unfold persons_of_position. apply mem_In. rewrite mem_distinct. apply mem_In.
  apply in_map. apply filter_In. now split.
Qed.

Lemma no_orphans_unit_deleted (s : store) (uid : Z) :
  no_orphans s -> no_orphans (unit_deleted s uid).
Proof.
  intros Hno p Hp. unfold unit_deleted in *. cbn [people contracts] in *.
  apply In_keep in Hp as [Hp Hkept].
  apply (cascade_leaves_no_orphan _ _ (persons_of_unit s uid)); try assumption.
  - intros c. apply persons_of_unit_cover.
  - now apply Hno.
Qed.

Lemma no_orphans_position_deleted (s : store) (pid : Z) :
  no_orphans s -> no_orphans (position_deleted s pid).
Proof.
  intros Hno p Hp. unfold position_deleted in *. cbn [people contracts] in *.
  apply In_keep in Hp as [Hp Hkept].
  apply (cascade_leaves_no_orphan _ _ (persons_of_position s pid)); try assumption.
  - intros c. apply persons_of_position_cover.
  - now apply Hno.
Qed.

Lemma no_orphans_contract_deleted (s : store) (cid : Z) :
  wf s -> no_orphans s -> no_orphans (contract_deleted s cid).
Proof.
  intros W Hno. unfold contract_deleted.
  destruct (find (by_contract cid) (contracts s)) as [c|] eqn:E; [|assumption].
  intros p Hp. cbn [people contracts] in *.
  apply In_keep in Hp as [Hp Hkept]. apply find_some in E as [Hc Hcid].
  apply (cascade_leaves_no_orphan _ _ [Contracts.person_id c]); try assumption.
  - intros c' Hc' Hcid'. left. f_equal.
    apply (NoDup_map_injective Contracts.contract_id (contracts s));
      [apply W | assumption | assumption |].
    unfold by_contract in *. apply Z.eqb_eq in Hcid, Hcid'. congruence.
  - now apply Hno.
Qed.

(** ** The handlers *)

Section HandlerFacts.
Context {RT : Runtime}.

Lemma delete_contract_result (cid : Z) (db : store) :
  delete_contract cid db
  = (Redirect "list_contracts" ["Contract deleted."], contract_deleted db cid).
Proof.
  unfold delete_contract. now rewrite execute_in_transaction_run, run_delete_contract_work.
Qed.

Lemma delete_position_result (pid : Z) (db : store) :
  delete_position pid db
  = (Redirect "list_positions" ["Position and related data deleted."],
     position_deleted db pid).
Proof.
  unfold delete_position. now rewrite execute_in_transaction_run, run_delete_position_work.
Qed.

Lemma delete_unit_result (uid : Z) (db : store) :
  delete_unit uid db
  = if dangling_position db uid then (Uncaught fk_failed, db)
    else (Redirect "list_units" ["Unit and related data deleted."], unit_deleted db uid).
Proof.
  unfold delete_unit. rewrite execute_in_transaction_run, run_delete_unit_work.
  now destruct (dangling_position db uid).
Qed.

Lemma validate_accepts (form : Form) (editing : bool) (payload : option Payload.t) :
  _validate_contract_payload form editing = (payload, []) -> payload <> None.
Proof.
  unfold _validate_contract_payload.
  repeat match goal with
         | |- context [match ?x with _ => _ end] => destruct x
         end;
    intros H; inversion H; subst; try discriminate;
    match goal with
    | E : (_ ++ [_])%list = [] |- _ => now destruct (app_cons_not_nil _ _ _ (eq_sym E))
    end.
Qed.

(** [create_contract]: either nothing is written and the form comes back,
    or one person and one contract are added, the contract's position
    carrying the submitted unit. *)
Lemma create_contract_cases (form : Form) (db : store) :
  (snd (create_contract form db) = db
   /\ exists flashed, fst (create_contract form db) = Render "CONTRACT_FORM_TEMPLATE" flashed)
  \/ exists payload nm po u y sal ch,
       _validate_contract_payload form false = (Some payload, [])
       /\ Payload.person_name payload = Some nm
       /\ Payload.position_id payload = Some po
       /\ Payload.unit_id payload = Some u
       /\ position_unit db po = Some u
       /\ create_contract form db
          = (Redirect "list_contracts" ["Contract created."],
             created db nm po u (Payload.start_date payload) (Payload.end_date payload)
               y sal ch).
Proof.
  unfold create_contract.
  destruct (_validate_contract_payload form false) as [payload errors] eqn:V.
  destruct errors as [|e errors]; [|left; split; [reflexivity | eexists; reflexivity]].
  destruct payload as [payload|]; [|now apply validate_accepts in V].
  rewrite execute_in_transaction_run.
  destruct (run (create_contract_work payload) db) as [[] db'|ex db'] eqn:R.
  - right. apply create_contract_work_returns in R
      as (nm & po & u & y & sal & ch & Hn & Hp & Hu & Hy & Hs & Hc & Hpos & ->).
    exists payload, nm, po, u, y, sal, ch. repeat split; assumption || reflexivity.
  - left. split; [reflexivity | eexists; reflexivity].
Qed.

Lemma edit_contract_cases (cid : Z) (form : Form) (db : store) :
  snd (edit_contract cid form db) = db
  \/ exists payload pe po u y sal ch,
       _validate_contract_payload form true = (Some payload, [])
       /\ Payload.position_id payload = Some po
       /\ Payload.unit_id payload = Some u
       /\ position_unit db po = Some u
       /\ edit_contract cid form db
          = (Redirect "list_contracts" ["Contract updated."],
             set_contracts db
               (update_where (by_contract cid)
                  (fun c => Contracts.mk (Contracts.contract_id c) pe po u
                              (Payload.start_date payload) (Payload.end_date payload)
                              y sal ch)
                  (contracts db))
               (seq_contracts db)).
Proof.
  unfold edit_contract.
  destruct (find (by_contract cid) (contracts db)); [|now left].
  destruct (_validate_contract_payload form true) as [payload errors] eqn:V.
  destruct errors as [|e errors]; [|now left].
  destruct payload as [payload|]; [|now apply validate_accepts in V].
  rewrite execute_in_transaction_run.
  destruct (run (edit_contract_work payload cid) db) as [[] db'|ex db'] eqn:R; [|now left].
  apply edit_contract_work_returns in R
    as (po & u & Hp & Hu & Hpos & [->|(pe & y & sal & ch & Hpe & ->)]); [now left|].
  right. exists payload, pe, po, u, y, sal, ch. repeat split; assumption || reflexivity.
Qed.

Lemma edit_position_cases (pid : Z) (form : Form) (db : store) :
  snd (edit_position pid form db) = db
  \/ exists code description uid,
       edit_position pid form db
       = (Redirect "list_positions" ["Position updated."],
          position_edited db code description uid pid).
Proof.
  unfold edit_position.
  destruct (find (is_position pid) (positions db)); [|now left].
  destruct (negb _); [now left|].
  destruct (py_int _) as [uid|]; [|now left].
  rewrite execute_in_transaction_run.
  destruct (run _ db) as [[] db'|ex db'] eqn:R.
  - apply edit_position_work_returns in R. subst db'. right. eauto.
  - left. now destruct (is_integrity_error ex).
Qed.
End HandlerFacts.

(** ** Sample data is consistent *)

(** The declared constraints on a two-row-per-table store, by evaluation. *)
Ltac check_constraints :=
  constructor; unfold person_ids, unit_ids, position_ids, contract_ids; simpl;
  [ repeat constructor; simpl; intuition discriminate ..
  | intros ? [<-|[<-|[]]]; simpl; tauto
  | intros ? [<-|[<-|[]]]; simpl; tauto ].

Lemma sample_db_wf : wf sample_db.
Proof. check_constraints. Qed.

Lemma sample_db_unit_sync : unit_sync sample_db.
Proof. intros c [<-|[<-|[]]]; reflexivity. Qed.

Lemma sample_db_no_orphans : no_orphans sample_db.
Proof. intros p [<-|[<-|[]]]; reflexivity. Qed.

Lemma create_contract_unit_sync {RT : Runtime} (form : Form) (db : store) :
  unit_sync db -> unit_sync (snd (create_contract form db)).
Proof.
  intros Hsync. destruct (create_contract_cases form db)
    as [[-> _]|(payload & nm & po & u & y & sal & ch & _ & _ & _ & _ & Hpos & ->)];
    [assumption|].
  now apply unit_sync_created.
Qed.

Lemma edit_contract_unit_sync {RT : Runtime} (cid : Z) (form : Form) (db : store) :
  unit_sync db -> unit_sync (snd (edit_contract cid form db)).
Proof.
  intros Hsync. destruct (edit_contract_cases cid form db)
    as [->|(payload & pe & po & u & y & sal & ch & _ & _ & _ & Hpos & ->)];
    [assumption|].
  now apply unit_sync_contract_updated.
Qed.

Lemma edit_position_unit_sync {RT : Runtime} (pid : Z) (form : Form) (db : store) :
  unit_sync db -> unit_sync (snd (edit_position pid form db)).
Proof.
  intros Hsync. destruct (edit_position_cases pid form db)
    as [->|(code & description & uid & ->)]; [assumption|].
  now apply unit_sync_position_edited.
Qed.

(** * The claims *)



(** C2. The identifier [create_contract.work] gives the new person is the
    least positive integer no person row uses: it is at least 1, it is not
    among the identifiers, and every positive integer below it is.  It is
    what the scan from candidate 1 over the ascending identifiers returns,
    and the unit of work inserts the person under it right after reading
    the identifiers.  When the identifiers have no gap, that is one past
    the largest. *)
Theorem new_person_gets_lowest_free_id :
  forall (db : store) (payload : Payload.t),
    let ids := person_ids db in
    let next_id := lowest_free_id (order_by (fun i => i) ids) in
    1 <= next_id
    /\ ~ In next_id ids
    /\ (forall k, 1 <= k < next_id -> In k ids)
    /\ ((forall k, 1 <= k <= max_id ids -> In k ids) -> next_id = max_id ids + 1)
    /\ exists rest,
         journal (create_contract_work payload) db
         = Sent SelectPersonIds
           :: Sent (InsertPerson next_id (Payload.person_name payload)) :: rest.
Proof.
  intros db payload ids next_id.
  destruct (allocated_id_least db) as (H1 & H2 & H3).
  fold ids in H2, H3. change (allocated_id db) with next_id in H1, H2, H3.
  split; [assumption | split; [assumption | split; [assumption | split]]].
  - intros Hfull. pose proof (max_id_nonneg ids) as Hmax.
    assert (Hnot : ~ (1 <= next_id <= max_id ids)) by (intros Hk; apply H2, Hfull, Hk).
    destruct (Z.eq_dec next_id 1) as [E|E].
    + destruct (Z.eq_dec (max_id ids) 0); lia.
    + assert (Hprev : In (next_id - 1) ids) by (apply H3; lia).
      apply max_id_upper in Hprev. lia.
  - unfold create_contract_work.
    rewrite journal_bind, journal_execute, run_execute. cbn [sqlite_exec].
    rewrite journal_bind, journal_execute. eexists. reflexivity.
Qed.







(** ** Where person rows come from *)

Lemma validate_person_name {RT : Runtime} (form : Form) (payload : Payload.t)
    (errors : list string) :
  _validate_contract_payload form false = (Some payload, errors) ->
  Payload.person_name payload = Some (py_strip (or_empty (form_get form "person_name"))).
Proof.
  unfold _validate_contract_payload. cbv zeta.
  destruct (py_strip (or_empty (form_get form "person_name")) =? "")%string;
    cbv beta iota;
    repeat match goal with
           | |- context [match ?x with _ => _ end] => destruct x
           end;
    intros H; inversion H; subst; reflexivity.
Qed.

Lemma incl_keep {A} (f : A -> bool) (l : list A) : incl (keep f l) l.
Proof. intros x Hx. now apply In_keep in Hx. Qed.

Ltac innermost_case :=
  match goal with
  | |- context [match ?x with _ => _ end] =>
      lazymatch x with
      | context [match _ with _ => _ end] => fail
      | _ => destruct x; cbv beta iota
      end
  end.

Ltac settle_handler :=
  repeat innermost_case;
  cbn [snd people set_units set_positions]; apply incl_refl.

Lemma list_units_people {RT : Runtime} (form : Form) (db : store) :
  incl (people (snd (list_units form db))) (people db).
Proof. unfold list_units, execute_db. cbv zeta. cbn [sqlite_exec]. settle_handler. Qed.

Lemma edit_unit_people {RT : Runtime} (uid : Z) (form : Form) (db : store) :
  incl (people (snd (edit_unit uid form db))) (people db).
Proof. unfold edit_unit, execute_db. cbv zeta. cbn [sqlite_exec]. settle_handler. Qed.

Lemma list_positions_people {RT : Runtime} (form : Form) (db : store) :
  incl (people (snd (list_positions form db))) (people db).
Proof. unfold list_positions, execute_db. cbv zeta. cbn [sqlite_exec]. settle_handler. Qed.

(** No handler but [create_contract] adds a person row. *)
Lemma handle_people_incl {RT : Runtime} (r : request) (db : store) :
  (forall form, r <> PostCreateContract form) ->
  incl (people (snd (handle r db))) (people db).
Proof.
  intros Hr. destruct r as [form|cid form|cid|form|uid form|uid|form|pid form|pid];
    cbn [handle].
  - now destruct (Hr form).
  - destruct (edit_contract_cases cid form db)
      as [->|(payload & pe & po & u & y & sal & ch & _ & _ & _ & _ & ->)]; apply incl_refl.
  - rewrite delete_contract_result. cbn [snd]. unfold contract_deleted.
    destruct (find _ _); [apply incl_keep | apply incl_refl].
  - apply list_units_people.
  - apply edit_unit_people.
  - rewrite delete_unit_result. destruct (dangling_position db uid);
      [apply incl_refl | apply incl_keep].
  - apply list_positions_people.
  - destruct (edit_position_cases pid form db) as [->|(code & description & u & ->)];
      apply incl_refl.
  - rewrite delete_position_result. apply incl_keep.
Qed.

(** C9, as the code has it.  A person row is only ever added by a committed
    contract creation, and every committed contract creation adds exactly
    one: a new row under the allocated identifier carrying the submitted
    name, whether or not some row already carries that name.  When the
    creation does not commit the people table is what it was, and no other
    request adds a person. *)
Theorem person_rows_come_from_contract_creation {RT : Runtime} :
  forall db : store,
    (forall form,
        (fst (create_contract form db) = Redirect "list_contracts" ["Contract created."]
         /\ people (snd (create_contract form db))
            = (people db
               ++ [People.mk (allocated_id db)
                             (py_strip (or_empty (form_get form "person_name")))])%list)
        \/ ((exists flashed,
               fst (create_contract form db) = Render "CONTRACT_FORM_TEMPLATE" flashed)
            /\ snd (create_contract form db) = db))
    /\ (forall r, (forall form, r <> PostCreateContract form) ->
                  incl (people (snd (handle r db))) (people db)).
Proof.
  intros db. split.
  - intros form. destruct (create_contract_cases form db)
      as [[Hsame Hrender]|(payload & nm & po & u & y & sal & ch & V & Hn & _ & _ & _ & E)].
    + right. now split.
    + left. rewrite E. cbn [fst snd created people]. split; [reflexivity|].
      apply validate_person_name in V. rewrite V in Hn. inversion Hn; subst. reflexivity.
  - intros r. apply handle_people_incl.
Qed.

(** C9, as the spec has it, fails: a contract created for "Ann", who is
    already among the people, adds a second row named "Ann". *)
Lemma create_contract_repeats_person_name :
  map People.name (people sample_db) = ["Ann"; "Bob"]
  /\ fst (create_contract (RT := ascii_runtime) (sample_form "Ann" "2") sample_db)
     = Redirect "list_contracts" ["Contract created."]
  /\ people (snd (create_contract (RT := ascii_runtime) (sample_form "Ann" "2") sample_db))
     = [People.mk 1 "Ann"; People.mk 2 "Bob"; People.mk 3 "Ann"].
Proof. repeat split; vm_compute; reflexivity. Qed.

(** ** Payload validation *)

Lemma snoc_not_nil {A} (l : list A) (x : A) : (l ++ [x])%list <> [].
Proof. destruct l; discriminate. Qed.

Lemma opt_Z_eqb_true (a : option Z) (b : Z) : opt_Z_eqb a b = true <-> a = Some b.
Proof.
  destruct a as [x|]; simpl; [|split; discriminate].
  rewrite Z.eqb_eq. split; congruence.
Qed.

(** C6. For a submission whose other fields are valid, the payload
    validation accepts the (start_date, end_date, years) triple exactly when
    the end date is not before the start date and the year count is
    [max(1, end.year - start.year)]; an end date before the start date is
    rejected with its own message, whatever the year count. *)
Theorem validation_accepts_consistent_triples {RT : Runtime} :
  forall (form : Form) (editing : bool) (start_dt end_dt : Date.t) (years : Z),
    other_fields_valid form editing ->
    submitted_triple form start_dt end_dt years ->
    (accepted form editing
     <-> Date.leb start_dt end_dt = true
         /\ years = Z.max 1 (Date.year end_dt - Date.year start_dt))
    /\ (Date.ltb end_dt start_dt = true ->
        _validate_contract_payload form editing
        = (None, ["End date cannot be before start date."]))
    /\ (accepted form editing ->
        exists payload,
          fst (_validate_contract_payload form editing) = Some payload
          /\ Payload.years payload = Some years).
Proof.
  intros form editing start_dt end_dt years
         (Hperson & Hpos & Hunit & Hsal & Hcap & Hipos & Hiunit & Hfsal & Hfcap)
         (Hstart & Hend & Hyears & Hds & Hde & Hy).
  unfold accepted, _validate_contract_payload. cbv zeta.
  rewrite Hpos, Hunit, Hsal, Hcap, Hstart, Hend, Hyears, Hy. cbn [andb negb].
  destruct (int_or_none (form_get form "position_id")) as [po|]; [|contradiction].
  destruct (int_or_none (form_get form "unit_id")) as [un|]; [|contradiction].
  destruct (float_or_none (form_get form "salary_millions")) as [sal|]; [|contradiction].
  destruct (float_or_none (form_get form "cap_hit_millions")) as [cap|]; [|contradiction].
  destruct (parse_date (form_get form "start_date")) as [[ss sd]|]; [|discriminate].
  destruct (parse_date (form_get form "end_date")) as [[es ed]|]; [|discriminate].
  simpl in Hds, Hde. inversion Hds; inversion Hde; subst sd ed.
  assert (Hp : exists pn pi,
             (if editing
              then if negb (truthy (form_get form "person_id"))
                   then (None, None, ([] ++ ["Missing person id."])%list)
                   else match py_int (or_empty (form_get form "person_id")) with
                        | Some n => (None, Some n, [])
                        | None => (None, None, ([] ++ ["Invalid person id."])%list)
                        end
              else if (py_strip (or_empty (form_get form "person_name")) =? "")%string
                   then (Some (py_strip (or_empty (form_get form "person_name"))), None,
                         ([] ++ ["Person name is required."])%list)
                   else (Some (py_strip (or_empty (form_get form "person_name"))), None, []))
             = (pn, pi, @nil string)).
  { destruct editing.
    - destruct Hperson as [Ht Hi]. rewrite Ht. cbn [negb].
      destruct (py_int _); [eauto | contradiction].
    - rewrite Hperson. eauto. }
  destruct Hp as (pn & pi & ->).
  unfold Date.leb.
  destruct (Date.ltb end_dt start_dt) eqn:Elt; cbn [negb fst snd].
  - split; [|split].
    + split; [intros H; now apply snoc_not_nil in H | intros [H _]; discriminate].
    + reflexivity.
    + intros H. now apply snoc_not_nil in H.
  - destruct (opt_Z_eqb (Some years) _) eqn:Ey; cbn [negb fst snd].
    + apply opt_Z_eqb_true in Ey. inversion Ey; subst.
      split; [|split].
      * split; [intros _; split; reflexivity | reflexivity].
      * discriminate.
      * intros _. eexists. split; reflexivity.
    + split; [|split].
      * split; [intros H; now apply snoc_not_nil in H|].
        intros [_ H]. rewrite H in Ey. simpl in Ey. rewrite Z.eqb_refl in Ey. discriminate.
      * discriminate.
      * intros H. now apply snoc_not_nil in H.
Qed.

Ltac by_evaluation :=
  unfold other_fields_valid, submitted_triple;
  repeat split; try (vm_compute; reflexivity); vm_compute; discriminate.

Lemma validation_accepts_consistent_triples_witness :
  (* start 2024-03-01, end 2026-03-01: years must be 2 *)
  accepted (RT := ascii_runtime) (sample_form "Cy" "2") false
  /\ ~ accepted (RT := ascii_runtime) (sample_form "Cy" "1") false
  /\ ~ accepted (RT := ascii_runtime) (sample_form "Cy" "3") false
  (* start 2024-01-01, end 2024-06-01: years must be 1 *)
  /\ accepted (RT := ascii_runtime) (short_form "1") false
  /\ ~ accepted (RT := ascii_runtime) (short_form "0") false
  (* end before start *)
  /\ _validate_contract_payload (RT := ascii_runtime) (backwards_form "1") false
     = (None, ["End date cannot be before start date."]).
Proof.
  pose (thm := validation_accepts_consistent_triples (RT := ascii_runtime)).
  assert (A2 : forall y n,
             other_fields_valid (RT := ascii_runtime) (sample_form "Cy" y) false ->
             submitted_triple (RT := ascii_runtime) (sample_form "Cy" y)
               (Date.mk 2024 3 1) (Date.mk 2026 3 1) n ->
             accepted (RT := ascii_runtime) (sample_form "Cy" y) false <-> n = 2).
  { intros y n H1 H2. destruct (thm _ _ _ _ _ H1 H2) as [Hiff _].
    rewrite Hiff. split; [intros [_ H]; exact H | intros ->; split; reflexivity]. }
  assert (A1 : forall y n,
             other_fields_valid (RT := ascii_runtime) (short_form y) false ->
             submitted_triple (RT := ascii_runtime) (short_form y)
               (Date.mk 2024 1 1) (Date.mk 2024 6 1) n ->
             accepted (RT := ascii_runtime) (short_form y) false <-> n = 1).
  { intros y n H1 H2. destruct (thm _ _ _ _ _ H1 H2) as [Hiff _].
    rewrite Hiff. split; [intros [_ H]; exact H | intros ->; split; reflexivity]. }
  split; [|split; [|split; [|split; [|split]]]].
  - apply (A2 "2" 2); [by_evaluation | by_evaluation | reflexivity].
  - intros H. apply (A2 "1" 1) in H; [discriminate | by_evaluation | by_evaluation].
  - intros H. apply (A2 "3" 3) in H; [discriminate | by_evaluation | by_evaluation].
  - apply (A1 "1" 1); [by_evaluation | by_evaluation | reflexivity].
  - intros H. apply (A1 "0" 0) in H; [discriminate | by_evaluation | by_evaluation].
  - assert (H1 : other_fields_valid (RT := ascii_runtime) (backwards_form "1") false)
      by by_evaluation.
    assert (H2 : submitted_triple (RT := ascii_runtime) (backwards_form "1")
                   (Date.mk 2024 6 1) (Date.mk 2024 1 1) 1) by by_evaluation.
    destruct (thm _ _ _ _ _ H1 H2) as (_ & Hreject & _).
    apply Hreject. reflexivity.
Defined.

(** Whatever the other fields: an accepted payload has dates that read, an
    end date not before the start date, and the matching year count. *)
Lemma validation_accepts_only_consistent {RT : Runtime} (form : Form) (editing : bool) :
  accepted form editing ->
  exists start_dt end_dt years,
    submitted_triple form start_dt end_dt years
    /\ Date.leb start_dt end_dt = true
    /\ years = Z.max 1 (Date.year end_dt - Date.year start_dt).
Proof.
  unfold accepted, submitted_triple, _validate_contract_payload. cbv zeta.
  set (person := if editing then _ else _). destruct person as [[pn pi] errs].
  destruct (truthy (form_get form "position_id")); cbn [andb negb];
    [|repeat innermost_case; intros H; simpl in H; now apply snoc_not_nil in H].
  destruct (truthy (form_get form "unit_id")); cbn [andb negb];
    [|repeat innermost_case; intros H; simpl in H; now apply snoc_not_nil in H].
  destruct (truthy (form_get form "start_date")); cbn [andb negb];
    [|repeat innermost_case; intros H; simpl in H; now apply snoc_not_nil in H].
  destruct (truthy (form_get form "end_date")); cbn [andb negb];
    [|repeat innermost_case; intros H; simpl in H; now apply snoc_not_nil in H].
  destruct (truthy (form_get form "years")); cbn [andb negb];
    [|repeat innermost_case; intros H; simpl in H; now apply snoc_not_nil in H].
  destruct (int_or_none (form_get form "position_id"));
    [|intros H; simpl in H; now apply snoc_not_nil in H].
  destruct (int_or_none (form_get form "unit_id"));
    [|intros H; simpl in H; now apply snoc_not_nil in H].
  destruct (int_or_none (form_get form "years")) as [years|];
    [|intros H; simpl in H; now apply snoc_not_nil in H].
  destruct (float_or_none (form_get form "salary_millions"));
    [|intros H; simpl in H; now apply snoc_not_nil in H].
  destruct (float_or_none (form_get form "cap_hit_millions"));
    [|intros H; simpl in H; now apply snoc_not_nil in H].
  destruct (parse_date (form_get form "start_date")) as [[ss sd]|];
    [|intros H; simpl in H; now apply snoc_not_nil in H].
  destruct (parse_date (form_get form "end_date")) as [[es ed]|];
    [|intros H; simpl in H; now apply snoc_not_nil in H].
  destruct (Date.ltb ed sd) eqn:Elt; [intros H; simpl in H; now apply snoc_not_nil in H|].
  destruct (opt_Z_eqb years _) eqn:Ey; cbn [negb];
    [|intros H; simpl in H; now apply snoc_not_nil in H].
  apply opt_Z_eqb_true in Ey. subst years.
  intros _. exists sd, ed, (Z.max 1 (Date.year ed - Date.year sd)).
  unfold Date.leb. rewrite Elt. repeat split; reflexivity.
Qed.

(** ** The report *)

Lemma build_filter_present (f : Filters.t) :
  build_filter f = (map fragment_text (present_fragments f), present_values f).
Proof. destruct f as [[u|] [p|] [mn|] [mx|]]; reflexivity. Qed.

Lemma read_where_built (f : Filters.t) :
  read_where "" (where_clause (fst (build_filter f)) ++ "") = Some (present_fragments f)
  /\ read_where ORDER_BY_PERSON (where_clause (fst (build_filter f)) ++ ORDER_BY_PERSON)
     = Some (present_fragments f).
Proof. destruct f as [[u|] [p|] [mn|] [mx|]]; split; vm_compute; reflexivity. Qed.

Lemma append_empty (s : string) : (s ++ "")%string = s.
Proof. induction s as [|a s IH]; simpl; [reflexivity | now rewrite IH]. Qed.

(** C7. Whatever subset of the four filters is present: the conditions are
    the fixed fragments of the present filters, one each, in the order unit,
    position, minimum salary, maximum salary; the parameters are the present
    values in the same order, as many as there are fragments; the WHERE
    clause is empty when nothing is present and otherwise [WHERE] followed
    by the fragments joined by [AND], which is how the engine reads it back;
    and the text depends on which filters are present only, never on their
    values. *)
Theorem filter_builder_binds_every_value :
  forall f : Filters.t,
    let '(conditions, params) := build_filter f in
    conditions = map fragment_text (present_fragments f)
    /\ params = present_values f
    /\ List.length conditions = List.length params
    /\ where_clause conditions
       = match present_fragments f with
         | [] => ""
         | _ :: _ => " WHERE " ++ join_and (map fragment_text (present_fragments f))
         end
    /\ read_where "" (where_clause conditions) = Some (present_fragments f)
    /\ (forall c, In c (present_fragments f) <->
                  match c with
                  | UnitIs => Filters.unit_id f <> None
                  | PositionIs => Filters.position_id f <> None
                  | SalaryAtLeast => Filters.min_salary f <> None
                  | SalaryAtMost => Filters.max_salary f <> None
                  end)
    /\ NoDup (present_fragments f)
    /\ (forall f', presence f' = presence f ->
                   fst (build_filter f') = conditions
                   /\ contracts_query (where_clause (fst (build_filter f')))
                      = contracts_query (where_clause conditions)
                   /\ stats_query (where_clause (fst (build_filter f')))
                      = stats_query (where_clause conditions)).
Proof.
  intros f. rewrite build_filter_present.
  pose proof (read_where_built f) as [Hread _].
  rewrite build_filter_present, append_empty in Hread. cbn [fst] in Hread.
  split; [reflexivity | split; [reflexivity | split; [|split; [|split; [|split; [|split]]]]]].
  - destruct f as [[u|] [p|] [mn|] [mx|]]; reflexivity.
  - destruct f as [[u|] [p|] [mn|] [mx|]]; reflexivity.
  - exact Hread.
  - intros c. destruct f as [[u|] [p|] [mn|] [mx|]]; destruct c; simpl;
      intuition (discriminate || congruence).
  - destruct f as [[u|] [p|] [mn|] [mx|]]; simpl;
      repeat constructor; simpl; intuition discriminate.
  - intros f' Hsame. rewrite (build_filter_present f'). cbn [fst].
    assert (E : present_fragments f' = present_fragments f).
    { destruct f as [[u|] [p|] [mn|] [mx|]]; destruct f' as [[u'|] [p'|] [mn'|] [mx'|]];
        try discriminate Hsame; reflexivity. }
    now rewrite E.
Qed.

(** *** The two queries on the same rows *)


Lemma append_assoc (a b c : string) : ((a ++ b) ++ c)%string = (a ++ (b ++ c))%string.
Proof. induction a as [|x a IH]; simpl; [reflexivity | now rewrite IH]. Qed.















(** ** Every state the application reaches is consistent *)

Section Reachable.
Context {RT : Runtime}.

Ltac via_transaction W :=
  match goal with
  | |- context [execute_in_transaction ?work ?iso ?db] =>
      let H := fresh "H" in
      pose proof (execute_in_transaction_wf work iso db W) as H;
      destruct (execute_in_transaction work iso db) as [[?|?] ?]; cbn [snd] in *
  | |- context [execute_db ?q ?db] =>
      let H := fresh "H" in
      pose proof (execute_db_wf q db W) as H;
      destruct (execute_db q db) as [[?|?] ?]; cbn [snd] in *
  end.

Lemma handle_wf (r : request) (db : store) : wf db -> wf (snd (handle r db)).
Proof.
  intros W. destruct r; cbn [handle];
    unfold create_contract, edit_contract, delete_contract, list_units, edit_unit,
           delete_unit, list_positions, edit_position, delete_position;
    cbv zeta;
    repeat match goal with
           | |- context [match ?x with _ => _ end] =>
               lazymatch x with
               | context [match _ with _ => _ end] => fail
               | context [execute_in_transaction] => fail
               | context [execute_db] => fail
               | _ => destruct x; cbv beta iota
               end
           end;
    try assumption; via_transaction W;
    repeat match goal with
           | |- context [if ?b then _ else _] => destruct b
           end;
    assumption.
Qed.

Lemma unit_sync_same_tables (s s' : store) :
  positions s' = positions s -> contracts s' = contracts s ->
  unit_sync s -> unit_sync s'.
Proof.
  intros Hp Hc Hsync c Hin. unfold position_unit. rewrite Hp. rewrite Hc in Hin.
  now apply Hsync.
Qed.

Lemma list_units_unit_sync (form : Form) (db : store) :
  unit_sync db -> unit_sync (snd (list_units form db)).
Proof.
  intros Hsync. unfold list_units, execute_db. cbv zeta. cbn [sqlite_exec].
  repeat innermost_case; cbn [snd]; try assumption;
    now apply (unit_sync_same_tables db).
Qed.

Lemma edit_unit_unit_sync (uid : Z) (form : Form) (db : store) :
  unit_sync db -> unit_sync (snd (edit_unit uid form db)).
Proof.
  intros Hsync. unfold edit_unit, execute_db. cbv zeta. cbn [sqlite_exec].
  repeat innermost_case; cbn [snd]; try assumption;
    now apply (unit_sync_same_tables db).
Qed.

Lemma unit_sync_position_added (s : store) (p : Positions.row) (n : Z) :
  unit_sync s -> unit_sync (set_positions s (positions s ++ [p]) n).
Proof.
  intros Hsync c Hc. specialize (Hsync c Hc). unfold position_unit in *.
  cbn [positions set_positions].
  destruct (find (is_position (Contracts.position_id c)) (positions s)) as [q|] eqn:E;
    [|discriminate].
  now rewrite (find_app_Some _ _ _ _ E).
Qed.

Lemma list_positions_unit_sync (form : Form) (db : store) :
  unit_sync db -> unit_sync (snd (list_positions form db)).
Proof.
  intros Hsync. unfold list_positions, execute_db. cbv zeta. cbn [sqlite_exec].
  repeat innermost_case; cbn [snd]; try assumption;
    now apply unit_sync_position_added.
Qed.

Lemma handle_unit_sync (r : request) (db : store) :
  unit_sync db -> unit_sync (snd (handle r db)).
Proof.
  intros Hsync.
  destruct r as [form|cid form|cid|form|uid form|uid|form|pid form|pid]; cbn [handle].
  - now apply create_contract_unit_sync.
  - now apply edit_contract_unit_sync.
  - rewrite delete_contract_result. now apply unit_sync_contract_deleted.
  - now apply list_units_unit_sync.
  - now apply edit_unit_unit_sync.
  - rewrite delete_unit_result. destruct (dangling_position db uid);
      [assumption | now apply unit_sync_unit_deleted].
  - now apply list_positions_unit_sync.
  - now apply edit_position_unit_sync.
  - rewrite delete_position_result. now apply unit_sync_position_deleted.
Qed.

Lemma empty_store_wf : wf empty_store.
Proof.
  constructor; unfold person_ids, unit_ids, position_ids, contract_ids; simpl.
  1-6: constructor.
  all: intros ? [].
Qed.

Lemma empty_store_unit_sync : unit_sync empty_store.
Proof. intros c []. Qed.

(** Starting from a consistent database -- the empty one that [init_db]
    creates, for instance -- every sequence of requests leaves the declared
    constraints and invariant 1 in place. *)
Lemma serve_consistent (rs : list request) (db : store) :
  wf db -> unit_sync db -> wf (serve rs db) /\ unit_sync (serve rs db).
Proof.
  revert db. induction rs as [|r rs IH]; intros db W Hsync; cbn [serve].
  - now split.
  - apply IH; [now apply handle_wf | now apply handle_unit_sync].
Qed.
End Reachable.

(** * Further properties of the handlers *)

(** ** The cascades, outcome by outcome *)


(** X2. Deleting a contract that exists, in a store with the declared
    constraints: that one contract row goes and every other contract stays;
    its person goes exactly when no other contract refers to them, and
    every other person stays; units, positions and counters are untouched.
    The unit of work sends the SELECT, the DELETE, the COUNT, and the
    person DELETE only when the count is zero. *)
Theorem delete_contract_cascade :
  forall (db : store) (c : Contracts.row),
    wf db -> In c (contracts db) ->
    let contract_id := Contracts.contract_id c in
    let person_id := Contracts.person_id c in
    let remaining := keep (by_contract contract_id) (contracts db) in
    let last := contract_count remaining person_id =? 0 in
    delete_contract contract_id db
    = (Redirect "list_contracts" ["Contract deleted."],
       mkStore (if last then keep (is_person person_id) (people db) else people db)
               (units db) (positions db) remaining
               (seq_units db) (seq_positions db) (seq_contracts db))
    /\ (forall c', In c' remaining <-> In c' (contracts db) /\ c' <> c)
    /\ (forall p, In p (if last then keep (is_person person_id) (people db) else people db)
                  <-> In p (people db)
                      /\ ~ (People.person_id p = person_id
                            /\ forall c', In c' (contracts db) ->
                                          Contracts.person_id c' = person_id -> c' = c))
    /\ journal (delete_contract_work contract_id) db
       = ([Sent (SelectContractPerson contract_id); Sent (DeleteContract contract_id);
           Sent (CountContractsOfPerson person_id)]
          ++ if last then [Sent (DeletePerson person_id)] else [])%list.
Proof.
  intros db c W Hc cid pe remaining last.
  assert (Hfind : find (by_contract cid) (contracts db) = Some c).
  { destruct (find (by_contract cid) (contracts db)) as [c'|] eqn:E.
    - apply find_some in E as [Hc' Hid]. f_equal.
      apply (NoDup_map_injective Contracts.contract_id (contracts db));
        [apply W | assumption | assumption |].
      unfold by_contract in Hid. now apply Z.eqb_eq in Hid.
    - exfalso. apply (find_none _ _ E c) in Hc. unfold by_contract, cid in Hc.
      rewrite Z.eqb_refl in Hc. discriminate. }
  assert (Hrem : forall c', In c' remaining <-> In c' (contracts db) /\ c' <> c).
  { intros c'. unfold remaining. rewrite In_keep. unfold by_contract.
    rewrite Z.eqb_neq. split; intros [H1 H2]; (split; [assumption|]).
    - intros ->. now apply H2.
    - intros E. apply H2.
      apply (NoDup_map_injective Contracts.contract_id (contracts db));
        [apply W | assumption | assumption | exact E]. }
  assert (Hlast : last = true <->
                  forall c', In c' (contracts db) -> Contracts.person_id c' = pe -> c' = c).
  { unfold last. rewrite contract_count_zero, negb_true_iff, existsb_false_forall. split.
    - intros H c' Hc' Hpe. destruct (Contracts.contract_id c' =? cid) eqn:E.
      + apply Z.eqb_eq in E.
        apply (NoDup_map_injective Contracts.contract_id (contracts db));
          [apply W | assumption | assumption | exact E].
      + assert (Hin : In c' remaining) by (apply In_keep; now split).
        specialize (H c' Hin). unfold by_person in H. apply Z.eqb_neq in H. contradiction.
    - intros H c' Hc'. apply Hrem in Hc' as [Hc' Hne]. unfold by_person.
      apply Z.eqb_neq. intros Hpe. apply Hne. now apply H. }
  split; [|split; [exact Hrem | split]].
  - rewrite delete_contract_result. unfold contract_deleted. rewrite Hfind.
    fold cid pe remaining. rewrite <- (sweep_one_orphaned remaining pe []).
    rewrite keep_orphaned_nil. reflexivity.
  - intros p. destruct last eqn:E.
    + rewrite In_keep. unfold is_person. rewrite Z.eqb_neq.
      destruct Hlast as [Hlast _]. specialize (Hlast eq_refl). tauto.
    + split; [|tauto]. intros Hp. split; [assumption|]. intros [_ Hall].
      apply Hlast in Hall. discriminate.
  - unfold delete_contract_work.
    rewrite journal_bind, journal_execute, run_execute. cbn [sqlite_exec].
    rewrite Hfind. cbn [option_map].
    rewrite journal_bind, journal_execute, run_execute. cbn [sqlite_exec].
    rewrite journal_bind, journal_execute, run_execute. cbn [sqlite_exec].
    cbn [contracts set_contracts]. fold cid pe remaining.
    fold (contract_count remaining pe). fold last.
    destruct last; [rewrite journal_execute|]; reflexivity.
Qed.

Lemma delete_contract_cascade_witness :
  wf sample_db
  /\ In (Contracts.mk 1 1 1 1 "2024-03-01" "2026-03-01" 2 1.5 2) (contracts sample_db)
  /\ delete_contract 1 sample_db
     = (Redirect "list_contracts" ["Contract deleted."],
        mkStore [People.mk 2 "Bob"]
                [Units.mk 1 "Offense"; Units.mk 2 "Defense"]
                [Positions.mk 1 "QB" "Quarterback" 1; Positions.mk 2 "LB" "Linebacker" 2]
                [Contracts.mk 2 2 2 2 "2024-01-01" "2024-06-01" 1 3 3.5]
                2 2 2).
Proof.
  assert (W : wf sample_db) by check_constraints.
  assert (H : In (Contracts.mk 1 1 1 1 "2024-03-01" "2026-03-01" 2 1.5 2)
                 (contracts sample_db)) by (left; reflexivity).
  split; [exact W | split; [exact H|]].
  exact (proj1 (delete_contract_cascade sample_db _ W H)).
Defined.




(** X4. Whatever requests arrive, in whatever order, starting from the
    empty database [init_db] creates: the declared constraints and
    invariant 1 hold in the database afterwards.  The same goes for any
    consistent starting database. *)
Theorem every_request_sequence_stays_consistent {RT : Runtime} :
  (forall rs : list request,
      wf (serve rs empty_store) /\ unit_sync (serve rs empty_store))
  /\ (forall (rs : list request) (db : store),
         wf db -> unit_sync db -> wf (serve rs db) /\ unit_sync (serve rs db)).
Proof.
  split.
  - intros rs. apply serve_consistent; [apply empty_store_wf | apply empty_store_unit_sync].
  - intros rs db. apply serve_consistent.
Qed.

(** ** What an accepted payload holds *)

Lemma truthy_Some (raw : option string) :
  truthy raw = true -> exists s, raw = Some s /\ (s =? "")%string = false.
Proof.
  destruct raw as [s|]; simpl; [|discriminate].
  intros H. exists s. split; [reflexivity | now apply negb_true_iff].
Qed.

Lemma int_or_none_truthy {RT : Runtime} (raw : option string) (v : option Z) :
  truthy raw = true -> int_or_none raw = Some v -> exists n, v = Some n.
Proof.
  intros Ht. apply truthy_Some in Ht as (s & -> & Hs). simpl. rewrite Hs.
  destruct (py_int s) as [n|]; [|discriminate]. intros H. inversion H. eauto.
Qed.

Lemma float_or_none_truthy {RT : Runtime} (raw : option string) (v : option float) :
  truthy raw = true -> float_or_none raw = Some v -> exists x, v = Some x.
Proof.
  intros Ht. apply truthy_Some in Ht as (s & -> & Hs). simpl. rewrite Hs.
  destruct (py_float s) as [x|]; [|discriminate]. intros H. inversion H. eauto.
Qed.

Lemma parse_date_raw {RT : Runtime} (raw : option string) (s : string) (d : Date.t) :
  parse_date raw = Some (s, d) -> raw = Some s.
Proof.
  destruct raw as [r|]; simpl; [|discriminate].
  destruct (strptime_ymd r); [|discriminate]. intros H. now inversion H.
Qed.

Ltac rejected :=
  repeat innermost_case; intros H; simpl in H; discriminate H.

(** The checks after the person part, for a person part without errors. *)
Lemma validation_tail_complete {RT : Runtime} (form : Form) (editing : bool)
    (pn : option string) (pi : option Z) :
  (if editing
   then if negb (truthy (form_get form "person_id"))
        then (None, None, ([] ++ ["Missing person id."])%list)
        else match py_int (or_empty (form_get form "person_id")) with
             | Some n => (None, Some n, [])
             | None => (None, None, ([] ++ ["Invalid person id."])%list)
             end
   else if (py_strip (or_empty (form_get form "person_name")) =? "")%string
        then (Some (py_strip (or_empty (form_get form "person_name"))), None,
              ([] ++ ["Person name is required."])%list)
        else (Some (py_strip (or_empty (form_get form "person_name"))), None, []))
  = (pn, pi, @nil string) ->
  accepted form editing ->
  exists po u y sal ch,
    _validate_contract_payload form editing
    = (Some (Payload.mk pn pi (Some po) (Some u)
               (or_empty (form_get form "start_date")) (or_empty (form_get form "end_date"))
               (Some y) (Some sal) (Some ch)),
       []).
Proof.
  intros Hperson. unfold accepted, _validate_contract_payload. cbv zeta. rewrite Hperson.
  destruct (truthy (form_get form "position_id")) eqn:T1; cbn [andb negb]; [|rejected].
  destruct (truthy (form_get form "unit_id")) eqn:T2; cbn [andb negb]; [|rejected].
  destruct (truthy (form_get form "start_date")) eqn:T3; cbn [andb negb]; [|rejected].
  destruct (truthy (form_get form "end_date")) eqn:T4; cbn [andb negb]; [|rejected].
  destruct (truthy (form_get form "years")) eqn:T5; cbn [andb negb]; [|rejected].
  destruct (truthy (form_get form "salary_millions")) eqn:T6; cbn [andb negb]; [|rejected].
  destruct (truthy (form_get form "cap_hit_millions")) eqn:T7; cbn [andb negb]; [|rejected].
  destruct (int_or_none (form_get form "position_id")) as [po|] eqn:E1; [|rejected].
  destruct (int_or_none (form_get form "unit_id")) as [u|] eqn:E2; [|rejected].
  destruct (int_or_none (form_get form "years")) as [y|] eqn:E3; [|rejected].
  destruct (float_or_none (form_get form "salary_millions")) as [sal|] eqn:E4; [|rejected].
  destruct (float_or_none (form_get form "cap_hit_millions")) as [ch|] eqn:E5; [|rejected].
  destruct (parse_date (form_get form "start_date")) as [[ss sd]|] eqn:D1; [|rejected].
  destruct (parse_date (form_get form "end_date")) as [[es ed]|] eqn:D2; [|rejected].
  destruct (Date.ltb ed sd); [rejected|].
  destruct (opt_Z_eqb y _); cbn [negb]; [|rejected].
  intros _.
  destruct (int_or_none_truthy _ _ T1 E1) as [po' ->].
  destruct (int_or_none_truthy _ _ T2 E2) as [u' ->].
  destruct (int_or_none_truthy _ _ T5 E3) as [y' ->].
  destruct (float_or_none_truthy _ _ T6 E4) as [sal' ->].
  destruct (float_or_none_truthy _ _ T7 E5) as [ch' ->].
  apply parse_date_raw in D1, D2. rewrite D1, D2 in *.
  apply truthy_Some in T3 as (s3 & H3 & N3). inversion H3; subst s3.
  apply truthy_Some in T4 as (s4 & H4 & N4). inversion H4; subst s4.
  simpl. rewrite N3, N4. exists po', u', y', sal', ch'. reflexivity.
Qed.

(** An accepted payload, field by field. *)
Lemma validate_complete {RT : Runtime} (form : Form) (editing : bool) :
  accepted form editing ->
  exists pn pi po u y sal ch,
    _validate_contract_payload form editing
    = (Some (Payload.mk pn pi (Some po) (Some u)
               (or_empty (form_get form "start_date")) (or_empty (form_get form "end_date"))
               (Some y) (Some sal) (Some ch)),
       [])
    /\ (if editing
        then pn = None
             /\ pi = py_int (or_empty (form_get form "person_id")) /\ pi <> None
        else pi = None
             /\ pn = Some (py_strip (or_empty (form_get form "person_name")))
             /\ py_strip (or_empty (form_get form "person_name")) <> "").
Proof.
  intros Hacc.
  assert (Hperson : exists pn pi,
             (if editing
              then if negb (truthy (form_get form "person_id"))
                   then (None, None, ([] ++ ["Missing person id."])%list)
                   else match py_int (or_empty (form_get form "person_id")) with
                        | Some n => (None, Some n, [])
                        | None => (None, None, ([] ++ ["Invalid person id."])%list)
                        end
              else if (py_strip (or_empty (form_get form "person_name")) =? "")%string
                   then (Some (py_strip (or_empty (form_get form "person_name"))), None,
                         ([] ++ ["Person name is required."])%list)
                   else (Some (py_strip (or_empty (form_get form "person_name"))), None, []))
             = (pn, pi, @nil string)
             /\ (if editing
                 then pn = None
                      /\ pi = py_int (or_empty (form_get form "person_id")) /\ pi <> None
                 else pi = None
                      /\ pn = Some (py_strip (or_empty (form_get form "person_name")))
                      /\ py_strip (or_empty (form_get form "person_name")) <> "")).
  { revert Hacc. unfold accepted, _validate_contract_payload. cbv zeta.
    destruct editing.
    - destruct (truthy (form_get form "person_id")); cbn [negb]; [|rejected].
      destruct (py_int (or_empty (form_get form "person_id"))) as [pe|] eqn:E; [|rejected].
      intros _. exists None, (Some pe). repeat split; discriminate.
    - destruct (py_strip (or_empty (form_get form "person_name")) =? "")%string eqn:E;
        [rejected|].
      intros _. eexists _, None. repeat split. now apply String.eqb_neq. }
  destruct Hperson as (pn & pi & Hperson & Hshape).
  destruct (validation_tail_complete form editing pn pi Hperson Hacc)
    as (po & u & y & sal & ch & E).
  exists pn, pi, po, u, y, sal, ch. now split.
Qed.

Lemma accepted_required_fields {RT : Runtime} (form : Form) (editing : bool) :
  accepted form editing ->
  forall key, In key required_fields -> truthy (form_get form key) = true.
Proof.
  unfold accepted, _validate_contract_payload. cbv zeta.
  set (person := if editing then _ else _). destruct person as [[pn pi] errs].
  destruct (truthy (form_get form "position_id")) eqn:T1; cbn [andb negb];
    [|repeat innermost_case; intros H; simpl in H; now apply snoc_not_nil in H].
  destruct (truthy (form_get form "unit_id")) eqn:T2; cbn [andb negb];
    [|repeat innermost_case; intros H; simpl in H; now apply snoc_not_nil in H].
  destruct (truthy (form_get form "start_date")) eqn:T3; cbn [andb negb];
    [|repeat innermost_case; intros H; simpl in H; now apply snoc_not_nil in H].
  destruct (truthy (form_get form "end_date")) eqn:T4; cbn [andb negb];
    [|repeat innermost_case; intros H; simpl in H; now apply snoc_not_nil in H].
  destruct (truthy (form_get form "years")) eqn:T5; cbn [andb negb];
    [|repeat innermost_case; intros H; simpl in H; now apply snoc_not_nil in H].
  destruct (truthy (form_get form "salary_millions")) eqn:T6; cbn [andb negb];
    [|repeat innermost_case; intros H; simpl in H; now apply snoc_not_nil in H].
  destruct (truthy (form_get form "cap_hit_millions")) eqn:T7; cbn [andb negb];
    [|repeat innermost_case; intros H; simpl in H; now apply snoc_not_nil in H].
  intros _ key Hkey. unfold required_fields in Hkey. simpl in Hkey.
  repeat (destruct Hkey as [<-|Hkey]; [assumption|]). destruct Hkey.
Qed.

(** X9. What reaches the database is complete.  When validation reports no
    error it returns a payload in which position, unit, years, salary and
    cap hit are all present, the dates are the submitted texts, and the
    person part is the one the mode asks for: a non-blank stripped name and
    no identifier when creating, an integer identifier and no name when
    editing.  Every one of the seven required fields was filled in: a form
    that leaves one out is never accepted. *)
Theorem accepted_payload_is_complete {RT : Runtime} :
  forall (form : Form) (editing : bool),
    accepted form editing ->
    (exists pn pi po u y sal ch,
        _validate_contract_payload form editing
        = (Some (Payload.mk pn pi (Some po) (Some u)
                   (or_empty (form_get form "start_date"))
                   (or_empty (form_get form "end_date"))
                   (Some y) (Some sal) (Some ch)),
           [])
        /\ (if editing
            then pn = None
                 /\ pi = py_int (or_empty (form_get form "person_id")) /\ pi <> None
            else pi = None
                 /\ pn = Some (py_strip (or_empty (form_get form "person_name")))
                 /\ py_strip (or_empty (form_get form "person_name")) <> ""))
    /\ (forall key, In key required_fields -> truthy (form_get form key) = true).
Proof.
  intros form editing Hacc. split.
  - exact (validate_complete form editing Hacc).
  - exact (accepted_required_fields form editing Hacc).
Qed.

Lemma accepted_payload_is_complete_witness :
  accepted (RT := ascii_runtime) (sample_form " Cy " "2") false
  /\ (forall key, In key required_fields ->
                  truthy (form_get (sample_form " Cy " "2") key) = true)
  /\ _validate_contract_payload (RT := ascii_runtime) (sample_form " Cy " "2") false
     = (Some (Payload.mk (Some "Cy") None (Some 1) (Some 1) "2024-03-01" "2026-03-01"
                         (Some 2) (Some 4.5%float) (Some 5%float)),
        []).
Proof.
  assert (H : accepted (RT := ascii_runtime) (sample_form " Cy " "2") false)
    by (vm_compute; reflexivity).
  destruct (accepted_payload_is_complete (RT := ascii_runtime) _ _ H)
    as [(pn & pi & po & u & y & sal & ch & E & _) Hfields].
  split; [exact H | split; [exact Hfields|]].
  vm_compute. reflexivity.
Defined.

(** ** Contract create and edit, outcome by outcome *)

Lemma position_unit_parents (s : store) (po u : Z) :
  wf s -> position_unit s po = Some u ->
  In po (position_ids s) /\ In u (unit_ids s).
Proof.
  intros W H. apply position_unit_Some in H as (p & Hp & Hid & Hu). split.
  - rewrite <- Hid. unfold position_ids. now apply in_map.
  - rewrite <- Hu. now apply (wf_positions_fk s W).
Qed.


Lemma edit_contract_work_run (s : store) (cid : Z) (pn : option string)
    (pe po u : Z) (sd ed : string) (y : Z) (sal ch : float) :
  wf s -> existsb (by_contract cid) (contracts s) = true ->
  position_unit s po = Some u ->
  run (edit_contract_work
         (Payload.mk pn (Some pe) (Some po) (Some u) sd ed (Some y) (Some sal) (Some ch))
         cid) s
  = if PrimFloat.is_nan sal
    then Raised (not_null_failed "contracts.salary_millions") s
    else if PrimFloat.is_nan ch
    then Raised (not_null_failed "contracts.cap_hit_millions") s
    else if mem pe (person_ids s)
    then Returned tt (contract_edited s cid pe po u sd ed y sal ch)
    else Raised fk_failed s.
Proof.
  intros W Hex Hpos. destruct (position_unit_parents s po u W Hpos) as [Hpo Hu].
  unfold edit_contract_work.
  cbn [Payload.person_id Payload.position_id Payload.unit_id Payload.years
       Payload.start_date Payload.end_date Payload.salary_millions
       Payload.cap_hit_millions].
  rewrite run_bind, run_position_unit_matches, Hpos, Z.eqb_refl. cbn [negb].
  rewrite run_execute. cbn [sqlite_exec bind_real]. rewrite Hex.
  destruct (PrimFloat.is_nan sal); [reflexivity|].
  destruct (PrimFloat.is_nan ch); [reflexivity|].
  cbn [contract_null_column].
  unfold contract_parents_ok.
  apply mem_In in Hpo, Hu. rewrite Hpo, Hu, !andb_true_r.
  destruct (mem pe (person_ids s)); reflexivity.
Qed.

Lemma existsb_by_contract (s : store) (cid : Z) :
  existsb (by_contract cid) (contracts s) = true <-> In cid (contract_ids s).
Proof.
  rewrite existsb_exists. unfold contract_ids. rewrite in_map_iff. split.
  - intros (c & Hc & E). exists c. unfold by_contract in E. apply Z.eqb_eq in E. now split.
  - intros (c & E & Hc). exists c. split; [assumption|]. unfold by_contract.
    now apply Z.eqb_eq.
Qed.

Lemma find_by_contract_In (s : store) (cid : Z) :
  In cid (contract_ids s) -> exists c, find (by_contract cid) (contracts s) = Some c.
Proof.
  intros H. apply existsb_by_contract in H.
  destruct (find (by_contract cid) (contracts s)) as [c|] eqn:E; [eauto|].
  apply existsb_exists in H as (c & Hc & Hb). now rewrite (find_none _ _ E c Hc) in Hb.
Qed.



(** [edit_contract] on an accepted form for a contract that exists. *)
Lemma edit_contract_accepted {RT : Runtime} (cid : Z) (form : Form) (db : store) :
  wf db -> In cid (contract_ids db) -> accepted form true ->
  exists pe po u y sal ch,
    let sd := or_empty (form_get form "start_date") in
    let ed := or_empty (form_get form "end_date") in
    py_int (or_empty (form_get form "person_id")) = Some pe
    /\ _validate_contract_payload form true
       = (Some (Payload.mk None (Some pe) (Some po) (Some u) sd ed
                           (Some y) (Some sal) (Some ch)), [])
    /\ edit_contract cid form db
       = match position_unit db po with
         | Some stored =>
             if stored =? u then
               if PrimFloat.is_nan sal
               then (Render "CONTRACT_FORM_TEMPLATE"
                            ["NOT NULL constraint failed: contracts.salary_millions"], db)
               else if PrimFloat.is_nan ch
               then (Render "CONTRACT_FORM_TEMPLATE"
                            ["NOT NULL constraint failed: contracts.cap_hit_millions"], db)
               else if mem pe (person_ids db)
               then (Redirect "list_contracts" ["Contract updated."],
                     contract_edited db cid pe po u sd ed y sal ch)
               else (Render "CONTRACT_FORM_TEMPLATE" ["FOREIGN KEY constraint failed"], db)
             else (Render "CONTRACT_FORM_TEMPLATE"
                          ["Selected position does not belong to selected unit."], db)
         | None => (Render "CONTRACT_FORM_TEMPLATE"
                           ["Selected position does not belong to selected unit."], db)
         end.
Proof.
  intros W Hcid Hacc.
  destruct (validate_complete form true Hacc)
    as (pn & pi & po & u & y & sal & ch & V & -> & Hpi & Hsome).
  destruct pi as [pe|]; [|now destruct Hsome].
  exists pe, po, u, y, sal, ch. cbv zeta. split; [now symmetry | split; [exact V|]].
  unfold edit_contract. destruct (find_by_contract_In db cid Hcid) as [c ->].
  rewrite V. rewrite execute_in_transaction_run.
  match goal with |- context [edit_contract_work ?p cid] => set (pl := p) end.
  destruct (position_unit db po) as [stored|] eqn:Epos.
  - destruct (stored =? u) eqn:Eu.
    + apply Z.eqb_eq in Eu. subst stored.
      unfold pl.
      rewrite edit_contract_work_run; [| assumption | now apply existsb_by_contract | assumption].
      destruct (PrimFloat.is_nan sal); [reflexivity|].
      destruct (PrimFloat.is_nan ch); [reflexivity|].
      destruct (mem pe (person_ids db)); reflexivity.
    + rewrite (edit_contract_work_mismatch pl cid db po u eq_refl eq_refl); [reflexivity|].
      apply Z.eqb_neq in Eu. congruence.
  - rewrite (edit_contract_work_mismatch pl cid db po u eq_refl eq_refl); [reflexivity|].
    rewrite Epos. discriminate.
Qed.



(** X6. [edit_contract] rewrites one contract row and nothing else, on
    every input: the people, units and positions tables and the counters
    are what they were, the contract identifiers are the same in the same
    order, and every contract with another identifier is the row it
    was. *)
Theorem edit_contract_rewrites_one_row {RT : Runtime} :
  forall (contract_id : Z) (form : Form) (db : store),
    let db' := snd (edit_contract contract_id form db) in
    people db' = people db
    /\ units db' = units db
    /\ positions db' = positions db
    /\ (seq_units db', seq_positions db', seq_contracts db')
       = (seq_units db, seq_positions db, seq_contracts db)
    /\ contract_ids db' = contract_ids db
    /\ (forall c, Contracts.contract_id c <> contract_id ->
                  (In c (contracts db') <-> In c (contracts db))).
Proof.
  intros cid form db db'. unfold db'.
  destruct (edit_contract_cases cid form db)
    as [->|(payload & pe & po & u & y & sal & ch & _ & _ & _ & _ & ->)].
  - repeat split; tauto.
  - cbn [snd]. repeat split.
    + unfold contract_ids. cbn [contracts set_contracts]. now apply map_update_where.
    + cbn [contracts set_contracts]. intros Hin.
      apply In_update_where in Hin as (a & Ha & ->).
      destruct (by_contract cid a) eqn:E; [|assumption].
      simpl in H. unfold by_contract in E. apply Z.eqb_eq in E. contradiction.
    + cbn [contracts set_contracts]. intros Hin. apply In_update_where.
      exists c. split; [assumption|]. unfold by_contract.
      apply Z.eqb_neq in H. now rewrite H.
Qed.

(** X7. [edit_contract] never removes a person.  In a store with the
    declared constraints, a committed edit that moves a contract to
    another person, when that contract was its former person's only one,
    leaves the former person in the people table with no contract at all:
    invariant 2 is not kept by this handler. *)
Theorem edit_contract_can_strand_a_person {RT : Runtime} :
  forall (form : Form) (db : store) (c : Contracts.row) (pe : Z),
    wf db ->
    In c (contracts db) ->
    (forall c', In c' (contracts db) ->
                Contracts.person_id c' = Contracts.person_id c -> c' = c) ->
    py_int (or_empty (form_get form "person_id")) = Some pe ->
    pe <> Contracts.person_id c ->
    fst (edit_contract (Contracts.contract_id c) form db)
    = Redirect "list_contracts" ["Contract updated."] ->
    let db' := snd (edit_contract (Contracts.contract_id c) form db) in
    In (Contracts.person_id c) (person_ids db')
    /\ contract_count (contracts db') (Contracts.person_id c) = 0
    /\ ~ no_orphans db'.
Proof.
  intros form db c pe W Hc Honly Hpe Hne Hcommit db'.
  assert (Hcid : In (Contracts.contract_id c) (contract_ids db))
    by (unfold contract_ids; now apply in_map).
  assert (Hacc : accepted form true).
  { unfold accepted. revert Hcommit. unfold edit_contract.
    destruct (find_by_contract_In db _ Hcid) as [c0 ->].
    destruct (_validate_contract_payload form true) as [payload [|e errors]];
      [reflexivity | discriminate]. }
  destruct (edit_contract_accepted _ form db W Hcid Hacc)
    as (pe' & po & u & y & sal & ch & Hpe' & _ & E).
  rewrite Hpe in Hpe'. inversion Hpe'; subst pe'. cbv zeta in E.
  assert (Hdb' : db' = contract_edited db (Contracts.contract_id c) pe po u
                         (or_empty (form_get form "start_date"))
                         (or_empty (form_get form "end_date")) y sal ch).
  { unfold db'. rewrite E in Hcommit |- *.
    destruct (position_unit db po) as [stored|]; [|discriminate].
    destruct (stored =? u); [|discriminate].
    destruct (PrimFloat.is_nan sal); [discriminate|].
    destruct (PrimFloat.is_nan ch); [discriminate|].
    destruct (mem pe (person_ids db)); [reflexivity | discriminate]. }
  assert (Hin : In (Contracts.person_id c) (person_ids db'))
    by (rewrite Hdb'; apply (wf_contracts_fk db W c Hc)).
  assert (Hzero : contract_count (contracts db') (Contracts.person_id c) = 0).
  { apply Z.eqb_eq. rewrite contract_count_zero. apply negb_true_iff.
    apply existsb_false_forall. intros c' Hc'. rewrite Hdb' in Hc'.
    unfold contract_edited in Hc'. cbn [contracts set_contracts] in Hc'.
    apply In_update_where in Hc' as (a & Ha & ->). unfold by_person, by_contract.
    destruct (Contracts.contract_id a =? Contracts.contract_id c) eqn:Eid; simpl.
    - apply Z.eqb_neq. exact Hne.
    - apply Z.eqb_neq. intros Hp. apply Z.eqb_neq in Eid. apply Eid.
      now rewrite (Honly a Ha Hp). }
  split; [exact Hin | split; [exact Hzero|]].
  intros Hno. unfold person_ids in Hin. apply in_map_iff in Hin as (p & Ep & Hp).
  specialize (Hno p Hp). rewrite Ep, Hzero in Hno. lia.
Qed.

Lemma edit_contract_can_strand_a_person_witness :
  wf sample_db
  /\ (let db' := snd (edit_contract (RT := ascii_runtime) 1 (edit_form "2") sample_db) in
      people db' = [People.mk 1 "Ann"; People.mk 2 "Bob"]
      /\ contract_count (contracts db') 1 = 0
      /\ ~ no_orphans db').
Proof.
  assert (W : wf sample_db) by check_constraints.
  split; [exact W|]. cbv zeta.
  destruct (edit_contract_can_strand_a_person (RT := ascii_runtime)
              (edit_form "2") sample_db
              (Contracts.mk 1 1 1 1 "2024-03-01" "2026-03-01" 2 1.5 2) 2 W)
    as (_ & Hzero & Hno).
  - left. reflexivity.
  - intros c' [<-|[<-|[]]]; [reflexivity | discriminate].
  - reflexivity.
  - discriminate.
  - reflexivity.
  - split; [reflexivity | split; [exact Hzero | exact Hno]].
Defined.

(** ** Invariant 2 across the handlers *)

Lemma contract_count_app (cs cs' : list Contracts.row) (pid : Z) :
  contract_count (cs ++ cs') pid = contract_count cs pid + contract_count cs' pid.
Proof.
  unfold contract_count. rewrite filter_app, length_app. lia.
Qed.

Lemma contract_count_update_where (f : Contracts.row -> bool)
    (g : Contracts.row -> Contracts.row) (cs : list Contracts.row) (pid : Z) :
  (forall c, Contracts.person_id (g c) = Contracts.person_id c) ->
  contract_count (update_where f g cs) pid = contract_count cs pid.
Proof.
  intros Hg. unfold contract_count, update_where. f_equal.
  induction cs as [|c cs IH]; simpl; [reflexivity|].
  assert (E : by_person pid (if f c then g c else c) = by_person pid c).
  { unfold by_person. destruct (f c); [now rewrite Hg | reflexivity]. }
  rewrite E. destruct (by_person pid c); simpl; now rewrite IH.
Qed.

Lemma no_orphans_created (s : store) (nm : string) (po u : Z) (sd ed : string)
    (y : Z) (sal ch : float) :
  no_orphans s -> no_orphans (created s nm po u sd ed y sal ch).
Proof.
  intros Hno p Hp. unfold created in *. cbn [people contracts] in *.
  rewrite contract_count_app.
  apply in_app_or in Hp as [Hp|[<-|[]]].
  - specialize (Hno p Hp).
    pose proof (contract_count_nonneg
                  [Contracts.mk (autoincrement (seq_contracts s) (contract_ids s))
                     (allocated_id s) po u sd ed y sal ch] (People.person_id p)). lia.
  - pose proof (contract_count_nonneg (contracts s) (allocated_id s)).
    unfold contract_count at 2. simpl. unfold by_person. simpl.
    rewrite Z.eqb_refl. simpl. lia.
Qed.

Lemma no_orphans_position_edited (s : store) (code description : string) (uid pid : Z) :
  no_orphans s -> no_orphans (position_edited s code description uid pid).
Proof.
  intros Hno p Hp. unfold position_edited in *. cbn [people contracts] in *.
  rewrite contract_count_update_where by reflexivity. now apply Hno.
Qed.

Lemma no_orphans_same_tables (s s' : store) :
  people s' = people s -> contracts s' = contracts s -> no_orphans s -> no_orphans s'.
Proof.
  intros Hp Hc Hno p Hin. rewrite Hc. rewrite Hp in Hin. now apply Hno.
Qed.

Section OrphanFree.
Context {RT : Runtime}.

Lemma list_units_no_orphans (form : Form) (db : store) :
  no_orphans db -> no_orphans (snd (list_units form db)).
Proof.
  intros Hno. unfold list_units, execute_db. cbv zeta. cbn [sqlite_exec].
  repeat innermost_case; cbn [snd]; try assumption;
    now apply (no_orphans_same_tables db).
Qed.

Lemma edit_unit_no_orphans (uid : Z) (form : Form) (db : store) :
  no_orphans db -> no_orphans (snd (edit_unit uid form db)).
Proof.
  intros Hno. unfold edit_unit, execute_db. cbv zeta. cbn [sqlite_exec].
  repeat innermost_case; cbn [snd]; try assumption;
    now apply (no_orphans_same_tables db).
Qed.

Lemma list_positions_no_orphans (form : Form) (db : store) :
  no_orphans db -> no_orphans (snd (list_positions form db)).
Proof.
  intros Hno. unfold list_positions, execute_db. cbv zeta. cbn [sqlite_exec].
  repeat innermost_case; cbn [snd]; try assumption;
    now apply (no_orphans_same_tables db).
Qed.
End OrphanFree.

(** X5. Invariant 2 is kept by every request except a contract edit.  In a
    store with the declared constraints where every person has a contract,
    every person still has one after any create, any delete, and any unit
    or position request: a person is only ever inserted together with their
    first contract, in one transaction. *)
Theorem requests_other_than_edits_leave_no_orphans {RT : Runtime} :
  forall (r : request) (db : store),
    wf db -> no_orphans db ->
    (forall contract_id form, r <> PostEditContract contract_id form) ->
    no_orphans (snd (handle r db)).
Proof.
  intros r db W Hno Hr.
  destruct r as [form|cid form|cid|form|uid form|uid|form|pid form|pid]; cbn [handle].
  - destruct (create_contract_cases form db)
      as [[-> _]|(payload & nm & po & u & y & sal & ch & _ & _ & _ & _ & _ & ->)];
      [assumption | now apply no_orphans_created].
  - now destruct (Hr cid form).
  - rewrite delete_contract_result. now apply no_orphans_contract_deleted.
  - now apply list_units_no_orphans.
  - now apply edit_unit_no_orphans.
  - rewrite delete_unit_result. destruct (dangling_position db uid);
      [assumption | now apply no_orphans_unit_deleted].
  - now apply list_positions_no_orphans.
  - destruct (edit_position_cases pid form db) as [->|(code & description & u & ->)];
      [assumption | now apply no_orphans_position_edited].
  - rewrite delete_position_result. now apply no_orphans_position_deleted.
Qed.

Lemma requests_other_than_edits_leave_no_orphans_witness :
  wf sample_db /\ no_orphans sample_db
  /\ no_orphans (snd (handle (RT := ascii_runtime)
                        (PostCreateContract (sample_form "Cy" "2")) sample_db))
  /\ people (snd (handle (RT := ascii_runtime)
                    (PostCreateContract (sample_form "Cy" "2")) sample_db))
     = [People.mk 1 "Ann"; People.mk 2 "Bob"; People.mk 3 "Cy"].
Proof.
  assert (W : wf sample_db) by check_constraints.
  assert (N : no_orphans sample_db) by (intros p [<-|[<-|[]]]; reflexivity).
  split; [exact W | split; [exact N | split]].
  - apply (requests_other_than_edits_leave_no_orphans (RT := ascii_runtime) _ _ W N).
    intros cid form. discriminate.
  - reflexivity.
Defined.

(** ** Identifier reuse *)

(** The allocated identifier is the only candidate with its two properties. *)
Lemma allocated_id_unique (s : store) (k : Z) :
  1 <= k -> ~ In k (person_ids s) ->
  (forall j, 1 <= j < k -> In j (person_ids s)) ->
  allocated_id s = k.
Proof.
  intros Hk Hnot Hbelow. destruct (allocated_id_least s) as (H1 & H2 & H3).
  destruct (Z.lt_trichotomy (allocated_id s) k) as [Hlt|[E|Hgt]].
  - exfalso. apply H2. apply Hbelow. lia.
  - exact E.
  - exfalso. apply Hnot. apply H3. lia.
Qed.

(** X10. A freed identifier is reused at once.  In a store with the
    declared constraints, let a contract be its person's only one and let
    every smaller positive identifier be in use.  After [delete_contract]
    on that contract the person is gone, and the identifier the next
    [create_contract] allocates is that person's: a committed creation
    right after inserts its new person under it. *)
Theorem freed_person_id_is_reused {RT : Runtime} :
  forall (db : store) (c : Contracts.row),
    wf db ->
    In c (contracts db) ->
    (forall c', In c' (contracts db) ->
                Contracts.person_id c' = Contracts.person_id c -> c' = c) ->
    1 <= Contracts.person_id c ->
    (forall j, 1 <= j < Contracts.person_id c -> In j (person_ids db)) ->
    let db1 := snd (delete_contract (Contracts.contract_id c) db) in
    ~ In (Contracts.person_id c) (person_ids db1)
    /\ allocated_id db1 = Contracts.person_id c
    /\ (forall form,
          fst (create_contract form db1) = Redirect "list_contracts" ["Contract created."] ->
          In (People.mk (Contracts.person_id c)
                        (py_strip (or_empty (form_get form "person_name"))))
             (people (snd (create_contract form db1)))).
Proof.
  intros db c W Hc Honly Hpos Hbelow db1.
  assert (Hfind : find (by_contract (Contracts.contract_id c)) (contracts db) = Some c).
  { destruct (find _ (contracts db)) as [c'|] eqn:E.
    - apply find_some in E as [Hc' Hid]. f_equal.
      apply (NoDup_map_injective Contracts.contract_id (contracts db));
        [apply W | assumption | assumption |].
      unfold by_contract in Hid. now apply Z.eqb_eq in Hid.
    - exfalso. apply (find_none _ _ E c) in Hc. unfold by_contract in Hc.
      rewrite Z.eqb_refl in Hc. discriminate. }
  assert (Hpeople : people db1
                    = keep (is_person (Contracts.person_id c)) (people db)).
  { unfold db1. rewrite delete_contract_result. cbn [snd]. unfold contract_deleted.
    rewrite Hfind. cbn [people].
    rewrite <- (sweep_one_orphaned _ (Contracts.person_id c) []), keep_orphaned_nil.
    unfold sweep_one.
    assert (E : (contract_count
                   (keep (by_contract (Contracts.contract_id c)) (contracts db))
                   (Contracts.person_id c) =? 0) = true).
    { rewrite contract_count_zero. apply negb_true_iff. apply existsb_false_forall.
      intros c' Hc'. apply In_keep in Hc' as [Hc' Hid]. unfold by_person.
      apply Z.eqb_neq. intros Hp. rewrite (Honly c' Hc' Hp) in Hid.
      unfold by_contract in Hid. rewrite Z.eqb_refl in Hid. discriminate. }
    now rewrite E. }
  assert (Hids : forall x, In x (person_ids db1)
                           <-> In x (person_ids db) /\ x <> Contracts.person_id c).
  { intros x. unfold person_ids. rewrite Hpeople. apply In_map_keep_key. }
  assert (Hgone : ~ In (Contracts.person_id c) (person_ids db1)).
  { intros H. apply Hids in H. now destruct H. }
  assert (Halloc : allocated_id db1 = Contracts.person_id c).
  { apply allocated_id_unique; [assumption | assumption |].
    intros j Hj. apply Hids. split; [now apply Hbelow | lia]. }
  split; [exact Hgone | split; [exact Halloc|]].
  intros form Hcommit.
  destruct (create_contract_cases form db1)
    as [[_ [flashed Hr]]|(payload & nm & po & u & y & sal & ch & V & Hn & _ & _ & _ & E)].
  - rewrite Hr in Hcommit. discriminate.
  - rewrite E. cbn [snd created people]. apply in_or_app. right. left.
    rewrite Halloc. f_equal. apply validate_person_name in V. rewrite V in Hn.
    now inversion Hn.
Qed.

Lemma freed_person_id_is_reused_witness :
  wf sample_db
  /\ (let db1 := snd (delete_contract 1 sample_db) in
      person_ids db1 = [2]
      /\ allocated_id db1 = 1
      /\ people (snd (create_contract (RT := ascii_runtime) (sample_form "Cy" "2") db1))
         = [People.mk 2 "Bob"; People.mk 1 "Cy"]).
Proof.
  assert (W : wf sample_db) by check_constraints.
  split; [exact W|]. cbv zeta.
  destruct (freed_person_id_is_reused (RT := ascii_runtime) sample_db
              (Contracts.mk 1 1 1 1 "2024-03-01" "2026-03-01" 2 1.5 2) W)
    as (_ & Halloc & _).
  - left. reflexivity.
  - intros c' [<-|[<-|[]]]; [reflexivity | discriminate].
  - simpl. lia.
  - simpl. intros j Hj. lia.
  - split; [reflexivity | split; [exact Halloc | reflexivity]].
Defined.

(** ** Units and positions, outcome by outcome *)




Lemma autoincrement_above (seq : Z) (ids : list Z) :
  seq < autoincrement seq ids /\ forall x, In x ids -> x < autoincrement seq ids.
Proof.
  unfold autoincrement. split; [lia|]. intros x Hx. apply max_id_upper in Hx. lia.
Qed.

(** X11. Adding a unit ([list_units], POST).  A blank name is refused, a
    name some unit already carries is refused with the uniqueness message,
    and in both cases nothing is written.  Any other name adds exactly one
    unit row, at the end, under an identifier above the sequence counter
    and above every identifier in the table; the other tables are
    untouched. *)
Theorem list_units_outcomes {RT : Runtime} :
  forall (form : Form) (db : store),
    let name := py_strip (or_empty (form_get form "unit_name")) in
    let unit_id := autoincrement (seq_units db) (unit_ids db) in
    (name = "" ->
     list_units form db = (Render "UNITS_TEMPLATE" ["Unit name is required."], db))
    /\ (name <> "" -> In name (map Units.name (units db)) ->
        list_units form db = (Render "UNITS_TEMPLATE" ["Unit name must be unique."], db))
    /\ (name <> "" -> ~ In name (map Units.name (units db)) ->
        list_units form db
        = (Render "UNITS_TEMPLATE" ["Unit added."],
           mkStore (people db) (units db ++ [Units.mk unit_id name]) (positions db)
                   (contracts db) unit_id (seq_positions db) (seq_contracts db)))
    /\ seq_units db < unit_id
    /\ (forall u, In u (units db) -> Units.unit_id u < unit_id).
Proof.
  intros form db name unit_id. unfold list_units, execute_db. cbv zeta.
  fold name. cbn [sqlite_exec]. fold unit_id.
  destruct (autoincrement_above (seq_units db) (unit_ids db)) as [Hseq Hids].
  split; [|split; [|split; [|split]]].
  - intros ->. reflexivity.
  - intros Hne Hin. apply String.eqb_neq in Hne. rewrite Hne.
    apply smem_In in Hin. rewrite Hin. reflexivity.
  - intros Hne Hnew. apply String.eqb_neq in Hne. rewrite Hne.
    apply smem_not_In in Hnew. rewrite Hnew. reflexivity.
  - exact Hseq.
  - intros u Hu. apply Hids. unfold unit_ids. now apply in_map.
Qed.





(** ** The report listing *)





(** ** Identifiers of the AUTOINCREMENT tables *)

Lemma never_reissued_refl (ids : store -> list Z) (seq : store -> Z) (s : store) :
  never_reissued ids seq s s.
Proof. split; [lia | now left]. Qed.

Lemma never_reissued_trans (ids : store -> list Z) (seq : store -> Z) (a b c : store) :
  never_reissued ids seq a b -> never_reissued ids seq b c -> never_reissued ids seq a c.
Proof.
  intros [H1 H2] [H3 H4]. split; [lia|]. intros i Hi.
  destruct (H4 i Hi) as [Hb|Hb]; [|right; lia].
  destruct (H2 i Hb) as [Ha|Ha]; [now left | right; lia].
Qed.

Lemma high_water_refl (s : store) : high_water s s.
Proof. repeat split; try lia; now left. Qed.

Lemma high_water_trans (a b c : store) :
  high_water a b -> high_water b c -> high_water a c.
Proof.
  intros (H1 & H2 & H3) (H4 & H5 & H6).
  repeat apply conj; eapply never_reissued_trans; eassumption.
Qed.

Lemma In_map_keep {A} (key : A -> Z) (f : A -> bool) (l : list A) (i : Z) :
  In i (map key (keep f l)) -> In i (map key l).
Proof.
  intros H. apply in_map_iff in H as (x & <- & Hx). apply In_keep in Hx as [Hx _].
  now apply in_map.
Qed.

Lemma autoincrement_after (seq : Z) (ids : list Z) : seq < autoincrement seq ids.
Proof. unfold autoincrement. lia. Qed.

Ltac same_or_fewer :=
  match goal with
  | H : In _ (map _ (keep _ _)) |- _ => apply In_map_keep in H
  | H : In _ (map _ (update_where _ _ _)) |- _ =>
      rewrite map_update_where in H by reflexivity
  end.

Ltac one_more :=
  match goal with
  | H : In ?i (map _ (_ ++ [_])) |- _ =>
      rewrite map_app in H; apply in_app_iff in H as [H|[<-|[]]];
      [now left | right; cbn; split; [apply autoincrement_after | lia]]
  end.

(** Every statement that succeeds leaves the three counters where they
    were or further on, and adds no identifier at or below them. *)
Lemma sqlite_exec_high_water {R} (q : stmt R) (s s' : store) (r : R) :
  sqlite_exec q s = inr (r, s') -> high_water s s'.
Proof.
  intros H. destruct q; simpl in H; break; try apply high_water_refl;
    unfold high_water, never_reissued, unit_ids, position_ids, contract_ids;
    cbn [units positions contracts seq_units seq_positions seq_contracts
         set_people set_units set_positions set_contracts];
    repeat apply conj; try lia; try (intros i Hi; now left);
    try apply Z.lt_le_incl, autoincrement_after;
    intros i Hi; try same_or_fewer; try (now left); one_more.
Qed.

Lemma run_high_water {A} (p : prog A) (s s' : store) (a : A) :
  run p s = Returned a s' -> high_water s s'.
Proof.
  revert s. induction p as [x|e|R q k IH]; intros s H; simpl in H.
  - inversion H; subst. apply high_water_refl.
  - discriminate.
  - destruct (sqlite_exec q s) as [e|[r s1]] eqn:E; [discriminate|].
    eapply high_water_trans; [eapply sqlite_exec_high_water; eassumption|].
    eapply IH; eassumption.
Qed.

Lemma execute_in_transaction_high_water {A} (work : prog A) (isolation : isolation_mode)
    (db : store) :
  high_water db (snd (execute_in_transaction work isolation db)).
Proof.
  rewrite execute_in_transaction_run.
  destruct (run work db) as [a db'|e db'] eqn:E; simpl; [|apply high_water_refl].
  eapply run_high_water; eassumption.
Qed.

Lemma execute_db_high_water {R} (q : stmt R) (db : store) :
  high_water db (snd (execute_db q db)).
Proof.
  unfold execute_db.
  destruct (sqlite_exec q db) as [e|[r s']] eqn:E; simpl; [apply high_water_refl|].
  eapply sqlite_exec_high_water; eassumption.
Qed.

Section HighWater.
Context {RT : Runtime}.

Ltac through_the_write :=
  match goal with
  | |- context [execute_in_transaction ?work ?iso ?db] =>
      let H := fresh "H" in
      pose proof (execute_in_transaction_high_water work iso db) as H;
      destruct (execute_in_transaction work iso db) as [[?|?] ?]; cbn [snd] in *
  | |- context [execute_db ?q ?db] =>
      let H := fresh "H" in
      pose proof (execute_db_high_water q db) as H;
      destruct (execute_db q db) as [[?|?] ?]; cbn [snd] in *
  end.

Lemma handle_high_water (r : request) (db : store) : high_water db (snd (handle r db)).
Proof.
  destruct r; cbn [handle];
    unfold create_contract, edit_contract, delete_contract, list_units, edit_unit,
           delete_unit, list_positions, edit_position, delete_position;
    cbv zeta;
    repeat match goal with
           | |- context [match ?x with _ => _ end] =>
               lazymatch x with
               | context [match _ with _ => _ end] => fail
               | context [execute_in_transaction] => fail
               | context [execute_db] => fail
               | _ => destruct x; cbv beta iota
               end
           end;
    try apply high_water_refl; through_the_write;
    repeat match goal with
           | |- context [if ?b then _ else _] => destruct b
           end;
    assumption.
Qed.

Lemma serve_high_water (rs : list request) (db : store) : high_water db (serve rs db).
Proof.
  revert db. induction rs as [|r rs IH]; intros db; cbn [serve].
  - apply high_water_refl.
  - eapply high_water_trans; [apply handle_high_water | apply IH].
Qed.

Lemma gone_for_good (ids : store -> list Z) (seq : store -> Z) (db0 db1 db2 : store) :
  never_reissued ids seq empty_store db0 -> seq empty_store = 0 -> ids empty_store = [] ->
  never_reissued ids seq db0 db1 ->
  never_reissued ids seq db1 db2 ->
  forall i, In i (ids db0) -> ~ In i (ids db1) -> ~ In i (ids db2).
Proof.
  intros [_ H0] Hseq Hids [H1 _] [_ H2] i Hi Hgone Hback.
  destruct (H2 i Hback) as [H|H]; [contradiction|].
  destruct (H0 i Hi) as [Hin|Hin]; [rewrite Hids in Hin; destruct Hin | lia].
Qed.
End HighWater.

(** X17. Identifiers of units, positions and contracts are never handed out
    twice.  Start from the empty database of [init_db] and let any requests
    arrive: an identifier that was in one of the three AUTOINCREMENT tables
    at some moment and is not in it at a later moment is in it at no moment
    after that; and an identifier that appears in a table is above the
    counter the table had before.  (Person identifiers are allocated by
    [create_contract] itself and do come back.) *)
Theorem autoincrement_ids_are_never_reissued {RT : Runtime} :
  forall (rs0 rs1 rs2 : list request),
    let db0 := serve rs0 empty_store in
    let db1 := serve rs1 db0 in
    let db2 := serve rs2 db1 in
    (forall i, In i (unit_ids db0) -> ~ In i (unit_ids db1) -> ~ In i (unit_ids db2))
    /\ (forall i, In i (position_ids db0) -> ~ In i (position_ids db1)
                  -> ~ In i (position_ids db2))
    /\ (forall i, In i (contract_ids db0) -> ~ In i (contract_ids db1)
                  -> ~ In i (contract_ids db2))
    /\ (forall i, In i (unit_ids db1) -> ~ In i (unit_ids db0) -> seq_units db0 < i)
    /\ (forall i, In i (position_ids db1) -> ~ In i (position_ids db0)
                  -> seq_positions db0 < i)
    /\ (forall i, In i (contract_ids db1) -> ~ In i (contract_ids db0)
                  -> seq_contracts db0 < i).
Proof.
  intros rs0 rs1 rs2 db0 db1 db2.
  destruct (serve_high_water rs0 empty_store) as (U0 & P0 & C0).
  destruct (serve_high_water rs1 db0) as (U1 & P1 & C1).
  destruct (serve_high_water rs2 db1) as (U2 & P2 & C2).
  fold db0 in U0, P0, C0, U1, P1, C1. fold db1 in U1, P1, C1, U2, P2, C2.
  fold db2 in U2, P2, C2.
  split; [|split; [|split; [|split; [|split]]]].
  - now apply (gone_for_good unit_ids seq_units db0 db1 db2).
  - now apply (gone_for_good position_ids seq_positions db0 db1 db2).
  - now apply (gone_for_good contract_ids seq_contracts db0 db1 db2).
  - intros i Hi Hnew. destruct (proj2 U1 i Hi) as [H|H]; [contradiction | lia].
  - intros i Hi Hnew. destruct (proj2 P1 i Hi) as [H|H]; [contradiction | lia].
  - intros i Hi Hnew. destruct (proj2 C1 i Hi) as [H|H]; [contradiction | lia].
Qed.

Lemma autoincrement_ids_are_never_reissued_witness :
  let add := PostListUnits [("unit_name", "Offense")] in
  unit_ids (serve (RT := ascii_runtime) [add] empty_store) = [1]
  /\ unit_ids (serve (RT := ascii_runtime) [add; PostDeleteUnit 1] empty_store) = []
  /\ ~ In 1 (unit_ids (serve (RT := ascii_runtime) [add; PostDeleteUnit 1; add] empty_store))
  /\ unit_ids (serve (RT := ascii_runtime) [add; PostDeleteUnit 1; add] empty_store) = [2].
Proof.
  intros add. split; [reflexivity | split; [reflexivity | split; [|reflexivity]]].
  apply (proj1 (autoincrement_ids_are_never_reissued (RT := ascii_runtime)
                  [add] [PostDeleteUnit 1] [add]) 1).
  - vm_compute. now left.
  - vm_compute. tauto.
Defined.

(** ** The outcomes on the sample database *)

Ltac evaluated := vm_compute; intuition (discriminate || congruence).


Lemma list_units_outcomes_witness :
  list_units (RT := ascii_runtime) [("unit_name", " Defense ")] sample_db
  = (Render "UNITS_TEMPLATE" ["Unit name must be unique."], sample_db)
  /\ list_units (RT := ascii_runtime) [("unit_name", "Special Teams")] sample_db
     = (Render "UNITS_TEMPLATE" ["Unit added."],
        mkStore (people sample_db)
                (units sample_db ++ [Units.mk 3 "Special Teams"])
                (positions sample_db) (contracts sample_db) 3 2 2).
Proof.
  split.
  - apply (proj1 (proj2 (list_units_outcomes (RT := ascii_runtime)
                           [("unit_name", " Defense ")] sample_db))).
    + discriminate.
    + vm_compute. tauto.
  - apply (proj1 (proj2 (proj2 (list_units_outcomes (RT := ascii_runtime)
                                  [("unit_name", "Special Teams")] sample_db)))).
    + discriminate.
    + evaluated.
Defined.




